(** * weather-react: the data normalizers, series builders and favorites store

    A shallow embedding of the pure core of the weather dashboard
    (the single source module of the application): [isSamePlace],
    [toggleFavorite], [buildHourlySeries], [buildDailySeries],
    [normalizePlace], [geocode], [reverseGeocodeOSM] and [fetchForecast],
    with the properties the specification states about them.

    JavaScript values are modelled as the program uses them: numbers are
    IEEE-754 doubles ([spec_float] of the Standard Library), absent values
    are [undefined]/[null], exceptions and rejected promises are the
    [Throw] case of a result monad. *)

From Stdlib Require Import ZArith NArith Lia Bool Ascii String Setoid.
From Stdlib Require Import DecimalString DecimalN DecimalPos DecimalFacts.
From Stdlib Require Import Floats.SpecFloat.
From stdpp Require Import base option list.
From stdpp Require Import strings gmap.

(** stdpp turns off the simplification of string concatenation; the proofs
    below compute with it. *)
Arguments String.append : simpl nomatch.

Local Open Scope string_scope.

(** ** Exceptions and the result monad *)

Inductive exn : Type :=
  | TypeError
  | SyntaxError
  | RangeError
  | Error (message : string).

Inductive result (A : Type) : Type :=
  | Ok (a : A)
  | Throw (e : exn).
Arguments Ok {A} a.
Arguments Throw {A} e.

#[global] Instance result_ret : MRet result := fun A a => Ok a.
#[global] Instance result_bind : MBind result := fun A B f m =>
  match m with
  | Ok a => f a
  | Throw e => Throw e
  end.

(** ** Numbers

    A JavaScript number is a double: a signed zero, an infinity, NaN, or
    [(-1)^s * m * 2^e]. *)

Abbreviation number := spec_float.

Definition NaN : number := S754_nan.

(** [x < 0] on numbers (false on both zeros and on NaN). *)
Definition isNegative (x : number) : bool :=
  match x with
  | S754_finite s _ _ => s
  | S754_infinity s => s
  | _ => false
  end.

(** The integer [n] for which [n / 10^f - m * 2^e] is as close to zero as
    possible, the larger one when there are two. *)
Definition scaled (f : nat) (m : positive) (e : Z) : N :=
  let p := (Z.pos m * 10 ^ Z.of_nat f)%Z in
  if (0 <=? e)%Z then Z.to_N (p * 2 ^ e)
  else Z.to_N ((2 * p + 2 ^ (- e)) / 2 ^ (1 - e)).

(** [|x| >= 10^21] for a finite non-zero [x = m * 2^e]. *)
Definition atLeast1e21 (m : positive) (e : Z) : bool :=
  if (0 <=? e)%Z then (10 ^ 21 <=? Z.pos m * 2 ^ e)%Z
  else (10 ^ 21 * 2 ^ (- e) <=? Z.pos m)%Z.

(** ** Strings *)

Fixpoint repeatChar (c : ascii) (k : nat) : string :=
  match k with
  | O => EmptyString
  | S k' => String c (repeatChar c k')
  end.

(** The decimal representation of a non-negative integer ("0" for zero). *)
Definition decimalDigits (n : N) : string :=
  NilZero.string_of_uint (N.to_uint n).

(** The fixed notation of Number.prototype.toFixed: the digits of [n],
    padded with leading zeros to [f + 1] characters, with a point before
    the last [f]. *)
Definition fixedDigits (f : nat) (n : N) : string :=
  let m := decimalDigits n in
  if Nat.eqb f 0 then m
  else
    let k := String.length m in
    let m := if Nat.leb k f then repeatChar "0" (f + 1 - k) ++ m else m in
    let k := if Nat.leb k f then f + 1 else k in
    let a := substring 0 (k - f) m in
    let b := substring (k - f) f m in
    a ++ "." ++ b.

(** ** The host environment

    Built-in functions of the JavaScript runtime that the program calls and
    whose results depend on data outside the program (locale tables, the
    clock, the number printer). *)

Inductive prim : Type :=
  | PUndefined
  | PNull
  | PBool (b : bool)
  | PNum (x : number)
  | PStr (s : string).

Class Host : Type := {
  (** Number::toString, used by template literals, [String(x)] and by
      [toFixed] outside its fixed-notation range *)
  NumberToString : number -> string;
  (** [new Date(v).getTime()]: the time value in milliseconds, [None] for
      an invalid date (NaN) *)
  DateTimeValue : prim -> option Z;
  (** [Date.now()] *)
  DateNow : Z;
  (** [d.toLocaleTimeString(locale, { hour: "2-digit", minute: "2-digit" })]
      for a date [d] of the given time value *)
  toLocaleTimeString : option Z -> string -> result string;
  (** [d.toLocaleDateString(locale, { weekday: "short" })] *)
  toLocaleDateString : option Z -> string -> result string;
  (** [c.toLocaleUpperCase(locale)], which throws a RangeError on a
      locale that is no language tag *)
  toLocaleUpperCase : string -> string -> result string;
  (** [s.trim()] *)
  trim : string -> string;
  encodeURIComponent : string -> string;
  (** [new URLSearchParams(entries).toString()] *)
  URLSearchParamsToString : list (string * string) -> string;
}.

(** Number.prototype.toFixed(fractionDigits), for the fraction digits it
    accepts (0 to 100): a number that is not finite or is at least [10^21]
    in magnitude prints as Number::toString does; any other prints a minus
    sign when [x < 0], then the rounded magnitude in fixed notation. *)
Definition toFixed `{Host} (x : number) (f : nat) : string :=
  match x with
  | S754_nan | S754_infinity _ => NumberToString x
  | S754_zero _ => fixedDigits f 0
  | S754_finite s m e =>
      let sign := if s then "-" else "" in
      if atLeast1e21 m e then sign ++ NumberToString (S754_finite false m e)
      else sign ++ fixedDigits f (scaled f m e)
  end.

(** ** Values

    A value the program passes around is a primitive or a place object. *)

Record Place : Type := {
  id : prim;
  name : prim;
  admin1 : prim;
  country : prim;
  latitude : prim;
  longitude : prim;
  timezone : prim;
}.

Inductive value : Type :=
  | VPrim (v : prim)
  | VObj (o : Place).

Definition isZeroOrNaN (x : number) : bool :=
  match x with
  | S754_zero _ | S754_nan => true
  | _ => false
  end.

(** ToBoolean *)
Definition truthyPrim (v : prim) : bool :=
  match v with
  | PUndefined | PNull => false
  | PBool b => b
  | PNum x => negb (isZeroOrNaN x)
  | PStr s => negb (s =? "")
  end.

Definition truthy (a : value) : bool :=
  match a with
  | VPrim v => truthyPrim v
  | VObj _ => true
  end.

(** [a || b] *)
Definition orElse (a b : prim) : prim := if truthyPrim a then a else b.

(** [a ?? b] *)
Definition nullish (a b : prim) : prim :=
  match a with
  | PUndefined | PNull => b
  | _ => a
  end.

(** ToString, as applied by template literals and [String(v)] *)
Definition ToString `{Host} (v : prim) : string :=
  match v with
  | PUndefined => "undefined"
  | PNull => "null"
  | PBool true => "true"
  | PBool false => "false"
  | PNum x => NumberToString x
  | PStr s => s
  end.

(** [a.f] for a field [f] of place objects: reading a property of
    [undefined] or [null] throws, a primitive has no such property. *)
Definition getField (f : Place -> prim) (a : value) : result prim :=
  match a with
  | VObj o => Ok (f o)
  | VPrim PUndefined | VPrim PNull => Throw TypeError
  | VPrim _ => Ok PUndefined
  end.

(** [a?.f], which is also [a.f] on a truthy [a] *)
Definition getFieldOpt (f : Place -> prim) (a : value) : prim :=
  match a with
  | VObj o => f o
  | VPrim _ => PUndefined
  end.

(** [v.toFixed(f)]: only numbers have the method. *)
Definition callToFixed `{Host} (v : prim) (f : nat) : result string :=
  match v with
  | PNum x => Ok (toFixed x f)
  | _ => Throw TypeError
  end.

(** ** Place equality *)

(** [`${a.latitude.toFixed(4)}:${a.longitude.toFixed(4)}`] *)
Definition coordKey `{Host} (a : value) : result string :=
  lat ← getField latitude a;
  latS ← callToFixed lat 4;
  lon ← getField longitude a;
  lonS ← callToFixed lon 4;
  Ok (latS ++ ":" ++ lonS).

Definition isSamePlace `{Host} (a b : value) : result bool :=
  if negb (truthy a) || negb (truthy b) then Ok false
  else
    keyA ← coordKey a;
    keyB ← coordKey b;
    Ok (keyA =? keyB).

(** ** Arrays *)

(** [arr.some(cb)] *)
Fixpoint some {A} (cb : A -> result bool) (arr : list A) : result bool :=
  match arr with
  | [] => Ok false
  | x :: rest => b ← cb x; if b : bool then Ok true else some cb rest
  end.

(** [arr.filter(cb)] *)
Fixpoint filter {A} (cb : A -> result bool) (arr : list A) : result (list A) :=
  match arr with
  | [] => Ok []
  | x :: rest =>
      b ← cb x;
      rest' ← filter cb rest;
      Ok (if b : bool then x :: rest' else rest')
  end.

(** [arr.slice(0, n)] *)
Definition slice0 {A} (n : nat) (arr : list A) : list A := take n arr.

(** [arr[i]] *)
Definition at_ (arr : list prim) (i : nat) : prim := default PUndefined (arr !! i).

(** ** Application state and the favorites store *)

Record AppState : Type := {
  favorites : list value;
  place : value;
  suggestions : list value;
  isSearching : bool;
}.

Definition setFavorites (upd : list value -> result (list value)) (st : AppState)
  : result AppState :=
  favs ← upd (favorites st);
  Ok {| favorites := favs; place := place st;
        suggestions := suggestions st; isSearching := isSearching st |}.

(** The updater passed to [setFavorites] by [toggleFavorite]. *)
Definition toggleUpdater `{Host} (p : value) (prev : list value) : result (list value) :=
  exists_ ← some (fun f => isSamePlace f p) prev;
  if exists_ : bool then filter (fun f => b ← isSamePlace f p; Ok (negb b)) prev
  else Ok (slice0 12 (p :: prev)).

(** [toggleFavorite(p = place)]: an [undefined] argument takes the current
    place. *)
Definition toggleFavorite `{Host} (arg : value) (st : AppState) : result AppState :=
  let p := match arg with VPrim PUndefined => place st | _ => arg end in
  if negb (truthy p) then Ok st
  else setFavorites (toggleUpdater p) st.

(** [favorites.some((f) => isSamePlace(f, place))] *)
Definition isFavorite `{Host} (st : AppState) : result bool :=
  some (fun f => isSamePlace f (place st)) (favorites st).

(** [current && isSamePlace(current, p)], the [active] flag of a chip. *)
Definition chipActive `{Host} (current p : value) : result value :=
  if truthy current then b ← isSamePlace current p; Ok (VPrim (PBool b))
  else Ok current.

(** ** Forecast snapshots *)

(** The hourly part; a member is an array, or [None] when it is absent or
    falsy. *)
Module Hourly.
Record t : Type := {
  time : option (list prim);
  temperature_2m : option (list prim);
  apparent_temperature : option (list prim);
  precipitation_probability : option (list prim);
}.
End Hourly.

(** A member of the daily part that is present with a truthy value: an
    array, or another value (a number, [true], a non-empty string, an
    object), of which the program can read [x[i]] but on which it cannot
    call [map]. *)
Inductive member : Type :=
  | MArray (items : list prim)
  | MOther (index : nat -> prim).

(** The daily part; a member that is absent, or present with a falsy
    value ([null], [false], [0], the empty string), is [None]. *)
Module Daily.
Record t : Type := {
  time : option member;
  temperature_2m_max : option member;
  temperature_2m_min : option member;
  weather_code : option member;
  sunrise : option member;
  sunset : option member;
}.
End Daily.

Record Address : Type := {
  city : prim;
  town : prim;
  village : prim;
  county : prim;
  state : prim;
  addr_country : prim;
}.

(** A parsed response body, with the members the program reads; an absent
    member is [None]. *)
Record Json : Type := {
  results : option (list value);
  address : option Address;
  hourly : option Hourly.t;
  daily : option Daily.t;
}.

Record HourlyPoint : Type := {
  hp_time : string;
  temp : prim;
  feels : prim;
  pop : prim;
  iso : prim;
}.


(** ** Series builder *)

(** [try { return new Date(iso).toLocaleTimeString(locale, ...) } catch { return "" }] *)
Definition formatTimeLabel `{Host} (iso : prim) (locale : string) : string :=
  match toLocaleTimeString (DateTimeValue iso) locale with
  | Ok s => s
  | Throw _ => ""
  end.


(** [t >= now] on time values; false as soon as one side is NaN. *)
Definition timeGe (t now : option Z) : bool :=
  match t, now with
  | Some t, Some n => (n <=? t)%Z
  | _, _ => false
  end.

(** The scan [for (let i = 0; i < times.length; i++)] that sets [startIdx]
    to the first [i] with [t >= now] and breaks; [rest] is the part of the
    array from index [i] on. *)
Fixpoint scanStart `{Host} (now : option Z) (rest : list prim) (i startIdx : nat) : nat :=
  match rest with
  | [] => startIdx
  | x :: rest' =>
      if timeGe (DateTimeValue x) now then i
      else scanStart now rest' (S i) startIdx
  end.

(** [buildHourlySeries(data, nowISO, hours = 24, locale = "pt-BR")];
    [hours] is a number of points. *)
Definition buildHourlySeries `{Host}
    (data : option Json) (nowISO : prim) (hours : nat) (locale : string)
  : list HourlyPoint :=
  let times := default [] ((data ≫= hourly) ≫= Hourly.time) in
  let temps := default [] ((data ≫= hourly) ≫= Hourly.temperature_2m) in
  let feelsArr := default [] ((data ≫= hourly) ≫= Hourly.apparent_temperature) in
  let popArr := default [] ((data ≫= hourly) ≫= Hourly.precipitation_probability) in
  let now := if truthyPrim nowISO then DateTimeValue nowISO else Some DateNow in
  let startIdx := scanStart now times 0 0 in
  let stop := Nat.min (length times) (startIdx + hours) in
  (fun i => {| hp_time := formatTimeLabel (at_ times i) locale;
               temp := at_ temps i;
               feels := at_ feelsArr i;
               pop := at_ popArr i;
               iso := at_ times i |})
    <$> seq startIdx (stop - startIdx).

(** ** Strings

    The program's strings are sequences of UTF-16 code units; here a
    string is held in UTF-8. A character of one, two or three bytes is one
    code unit, a character of four bytes is two (a surrogate pair). *)

(** A byte [10xxxxxx], which continues a character. *)
Definition isContinuation (c : ascii) : bool :=
  match c with
  | Ascii _ _ _ _ _ _ b6 b7 => b7 && negb b6
  end.

(** A byte [1111xxxx], which starts a character of four bytes. *)
Definition isAstralLead (c : ascii) : bool :=
  match c with
  | Ascii _ _ _ _ b4 b5 b6 b7 => b7 && b6 && b5 && b4
  end.

(** The code units counted at a byte. *)
Definition codeUnits (c : ascii) : nat :=
  if isContinuation c then 0 else if isAstralLead c then 2 else 1.

(** [s.length] *)
Fixpoint utf16Length (s : string) : nat :=
  match s with
  | EmptyString => 0
  | String c rest => codeUnits c + utf16Length rest
  end.









(** ** Network boundary *)

Record Response : Type := {
  ok : bool;
  status : N;
  (** [res.json()]: the parsed body ([None] for [null]), or a rejection *)
  json : result (option Json);
}.

Class Network : Type := {
  (** [fetch(url)]: a response, or a rejection on a network error *)
  fetch : string -> result Response;
}.

Definition fetchJson `{Network} (url : string) : result (option Json) :=
  res ← fetch url;
  if negb (ok res) then Throw (Error ("HTTP " ++ decimalDigits (status res)))
  else json res.

(** ** Place resolver *)

Definition normalizePlace `{Host} (p : value) : value :=
  if negb (truthy p) then VPrim PNull
  else
    VObj {| id := nullish (getFieldOpt id p)
                    (PStr (ToString (getFieldOpt latitude p) ++ ","
                           ++ ToString (getFieldOpt longitude p)));
            name := getFieldOpt name p;
            admin1 := getFieldOpt admin1 p;
            country := getFieldOpt country p;
            latitude := getFieldOpt latitude p;
            longitude := getFieldOpt longitude p;
            timezone := getFieldOpt timezone p |}.

Definition geocodeUrl `{Host} (query : string) (count : prim) (language : string) : string :=
  let q := encodeURIComponent (trim query) in
  "/wx-geo/v1/search?name=" ++ q ++ "&count=" ++ ToString count
    ++ "&language=" ++ language ++ "&format=json".

(** [geocode(query, count = 6, language = "pt")] *)
Definition geocode `{Host} `{Network} (query : string) (count : prim) (language : string)
  : result (list value) :=
  data ← fetchJson (geocodeUrl query count language);
  Ok (normalizePlace <$> default [] (data ≫= results)).

Definition emptyAddress : Address :=
  {| city := PUndefined; town := PUndefined; village := PUndefined;
     county := PUndefined; state := PUndefined; addr_country := PUndefined |}.

Definition reverseUrl `{Host} (lat lon : prim) (language : string) : string :=
  "https://nominatim.openstreetmap.org/reverse?format=jsonv2&lat=" ++ ToString lat
    ++ "&lon=" ++ ToString lon ++ "&accept-language=" ++ language.

(** [reverseGeocodeOSM(lat, lon, language = "pt-BR")] *)
Definition reverseGeocodeOSM `{Host} `{Network} (lat lon : prim) (language : string)
  : result (list value) :=
  data ← fetchJson (reverseUrl lat lon language);
  let a := default emptyAddress (data ≫= address) in
  let name_ :=
    orElse (city a) (orElse (town a) (orElse (village a)
      (orElse (county a) (PStr "Minha localização")))) in
  let admin1_ := orElse (state a) (PStr "") in
  let country_ := orElse (addr_country a) (PStr "") in
  Ok [VObj {| id := PStr ("osm:" ++ ToString lat ++ "," ++ ToString lon);
              name := name_;
              admin1 := admin1_;
              country := country_;
              latitude := lat;
              longitude := lon;
              timezone := PStr "auto" |}].

(** ** Forecast fetcher *)

Definition join (sep : string) (parts : list string) : string := String.concat sep parts.

Definition primEqStr (v : prim) (s : string) : bool :=
  match v with
  | PStr s' => s' =? s
  | _ => false
  end.

(** The entries given to [URLSearchParams] by [fetchForecast]. *)
Definition forecastParams `{Host} (place : value) (unit : prim)
  : result (list (string * string)) :=
  let unit := match unit with PUndefined => PStr "metric" | _ => unit end in
  let tempUnit := if primEqStr unit "imperial" then "fahrenheit" else "celsius" in
  let windUnit := if primEqStr unit "imperial" then "mph" else "kmh" in
  lat ← getField latitude place;
  lon ← getField longitude place;
  tz ← getField timezone place;
  Ok [ ("latitude", ToString lat);
       ("longitude", ToString lon);
       ("timezone", ToString (orElse tz (PStr "auto")));
       ("temperature_unit", tempUnit);
       ("wind_speed_unit", windUnit);
       ("current", join "," ["temperature_2m"; "relative_humidity_2m";
                             "apparent_temperature"; "weather_code";
                             "wind_speed_10m"; "visibility"; "is_day"]);
       ("hourly", join "," ["temperature_2m"; "apparent_temperature";
                            "relative_humidity_2m"; "weather_code";
                            "wind_speed_10m"; "visibility";
                            "precipitation_probability"]);
       ("daily", join "," ["weather_code"; "temperature_2m_max";
                           "temperature_2m_min"; "sunrise"; "sunset"]);
       ("forecast_days", "7") ].

(** [fetchForecast(place, unit = "metric")] *)
Definition fetchForecast `{Host} `{Network} (place : value) (unit : prim)
  : result (option Json) :=
  params ← forecastParams place unit;
  fetchJson ("https://api.open-meteo.com/v1/forecast?" ++ URLSearchParamsToString params).

(** ** Debounced search

    The body of the timer callback of the search effect; [alive] is the
    liveness flag as the callback finds it after the request settles. *)
Definition searchCallback `{Host} `{Network} (query : string) (alive : bool)
    (st : AppState) : AppState :=
  let setSuggestions (res : list value) (st : AppState) :=
    {| favorites := favorites st; place := place st;
       suggestions := res; isSearching := isSearching st |} in
  let setIsSearching (b : bool) (st : AppState) :=
    {| favorites := favorites st; place := place st;
       suggestions := suggestions st; isSearching := b |} in
  let st :=
    match geocode query (PNum (S754_finite false 6 0)) "pt" with
    | Ok res => if negb alive then st else setSuggestions res st
    | Throw _ => if negb alive then st else setSuggestions [] st
    end in
  if negb alive then st else setIsSearching false st.

(** * Specification vocabulary and examples *)

(** ** Characters and digits *)

(** Every character of [s] satisfies [P]. *)
Fixpoint allChars (P : ascii -> bool) (s : string) : bool :=
  match s with
  | EmptyString => true
  | String c s' => P c && allChars P s'
  end.

(** [c] is one of the characters 0 to 9. *)
Definition isDigit (c : ascii) : bool :=
  match NilEmpty.uint_of_string (String c EmptyString) with
  | Some _ => true
  | None => false
  end.

(** [c] is a digit or the decimal point. *)
Definition fixedChar (c : ascii) : bool := isDigit c || (c =? ".")%char.

(** The number a string of decimal digits denotes. *)
Definition parseDigits (s : string) : option N :=
  N.of_uint <$> NilEmpty.uint_of_string s.

(** The digits of [n] before the point is inserted. *)
Definition padded (f : nat) (n : N) : string :=
  let m := decimalDigits n in
  repeatChar "0" (f + 1 - String.length m) ++ m.

(** ** Rounded coordinates *)

(** [toFixed] prints in fixed notation: finite and below [10^21]. *)
Definition fixedRange (x : number) : bool :=
  match x with
  | S754_zero _ => true
  | S754_finite _ m e => negb (atLeast1e21 m e)
  | _ => false
  end.

(** [|x|] rounded to [f] decimals, as a multiple of [10^-f]. *)
Definition magnitude (x : number) (f : nat) : N :=
  match x with
  | S754_finite _ m e => scaled f m e
  | _ => 0%N
  end.

(** [x] rounded to [f] decimals (to nearest, ties away from zero), as a
    multiple of [10^-f]. *)
Definition round (x : number) (f : nat) : Z :=
  if isNegative x then (- Z.of_N (magnitude x f))%Z else Z.of_N (magnitude x f).

(** Same rounded value, and the same side of zero when that value is zero. *)
Definition sameFixed (f : nat) (x y : number) : bool :=
  (round x f =? round y f)%Z
  && (negb (round x f =? 0)%Z || Bool.eqb (isNegative x) (isNegative y)).

(** [|x| <= k] for an integer bound [k]. *)
Definition absLe (x : number) (k : Z) : bool :=
  match x with
  | S754_zero _ => true
  | S754_finite _ m e =>
      if (0 <=? e)%Z then (Z.pos m * 2 ^ e <=? k)%Z
      else (Z.pos m <=? k * 2 ^ (- e))%Z
  | _ => false
  end.

(** The number a coordinate member holds. *)
Definition coordinate (v : prim) : number :=
  match v with
  | PNum x => x
  | _ => NaN
  end.

(** The invariant of the data model: numeric coordinates with latitude in
    [-90, 90] and longitude in [-180, 180]. *)
Definition validPlace (o : Place) : bool :=
  match latitude o, longitude o with
  | PNum x, PNum y => absLe x 90 && absLe y 180
  | _, _ => false
  end.

(** ** Example environment and places *)

(** An environment for the examples: it prints integral numbers in decimal,
    reads an integral number [n] as the date [new Date(n)], and has one
    label for every date. *)
Definition exampleHost : Host := {|
  NumberToString x :=
    match x with
    | S754_zero _ => "0"
    | S754_finite s m e =>
        (if s then "-" else "")
          ++ (if (0 <=? e)%Z then decimalDigits (Z.to_N (Z.pos m * 2 ^ e)) else "?")
    | S754_infinity s => (if s then "-" else "") ++ "Infinity"
    | S754_nan => "NaN"
    end;
  DateTimeValue v :=
    match v with
    | PNum (S754_zero _) => Some 0%Z
    | PNum (S754_finite s m e) =>
        if (0 <=? e)%Z
        then Some (if s then - (Z.pos m * 2 ^ e) else Z.pos m * 2 ^ e)%Z
        else None
    | _ => None
    end;
  DateNow := 0%Z;
  toLocaleTimeString _ _ := Ok "00:00";
  toLocaleDateString _ _ := Ok "seg.";
  toLocaleUpperCase s _ := Ok s;
  trim s := s;
  encodeURIComponent s := s;
  URLSearchParamsToString entries :=
    String.concat "&" ((fun kv => fst kv ++ "=" ++ snd kv) <$> entries);
|}.

(** Two places 4.4 m apart across the equator, at latitudes
    [-0.00002] and [0.00002] and longitude [37]. *)
Definition southOfEquator : Place := {|
  id := PStr "gps:-0.00002,37";
  name := PStr "Minha localização";
  admin1 := PStr "";
  country := PStr "";
  latitude := PNum (S754_finite true 5902958103587057 (-68));
  longitude := PNum (S754_finite false 5207287069147136 (-47));
  timezone := PStr "auto";
|}.

Definition northOfEquator : Place := {|
  id := PStr "gps:0.00002,37";
  name := PStr "Minha localização";
  admin1 := PStr "";
  country := PStr "";
  latitude := PNum (S754_finite false 5902958103587057 (-68));
  longitude := PNum (S754_finite false 5207287069147136 (-47));
  timezone := PStr "auto";
|}.

(** The default place of the application, São Paulo at
    [-23.5505, -46.6333]. *)
Definition saoPaulo : Place := {|
  id := PStr "default-sp";
  name := PStr "São Paulo";
  admin1 := PStr "SP";
  country := PStr "Brasil";
  latitude := PNum (S754_finite true 6628876439024304 (-48));
  longitude := PNum (S754_finite true 6563053515720517 (-47));
  timezone := PStr "America/Sao_Paulo";
|}.

(** ** Favorites *)

(** A place record as far as [isSamePlace] reads it: an object with
    numeric coordinates. *)
Definition numericPlace (v : value) : bool :=
  match v with
  | VObj o =>
      match latitude o, longitude o with
      | PNum _, PNum _ => true
      | _, _ => false
      end
  | VPrim _ => false
  end.

(** [f] is reported equal to [p]. *)
Definition sameAs `{Host} (p f : value) : bool :=
  match isSamePlace f p with
  | Ok b => b
  | Throw _ => false
  end.

(** [prev.some((f) => isSamePlace(f, p))]: the list holds a place equal
    to [p]. *)
Definition hasPlace `{Host} (p : value) (favs : list value) : result bool :=
  some (fun f => isSamePlace f p) favs.

(** A place at latitude [k] degrees north on the Greenwich meridian. *)
Definition placeAt (k : positive) : Place := {|
  id := PNum (S754_finite false k 0);
  name := PStr "P";
  admin1 := PUndefined;
  country := PUndefined;
  latitude := PNum (S754_finite false k 0);
  longitude := PNum (S754_zero false);
  timezone := PStr "auto";
|}.

(** An application state with the favorites [favs] and no current place. *)
Definition stateWith (favs : list value) : AppState :=
  {| favorites := favs; place := VPrim PNull; suggestions := []; isSearching := false |}.

(** ** Series *)

(** [data?.hourly?.time || []] *)
Definition hourlyTimes (data : option Json) : list prim :=
  default [] ((data ≫= hourly) ≫= Hourly.time).


(** The instant the hourly window is aligned to: the time value of
    [nowISO], or the clock when [nowISO] is missing. *)
Definition referenceInstant `{Host} (nowISO : prim) : option Z :=
  if truthyPrim nowISO then DateTimeValue nowISO else Some DateNow.

(** The point [buildHourlySeries] pushes for index [i]. *)
Definition hourlyPoint `{Host} (data : option Json) (locale : string) (i : nat)
  : HourlyPoint :=
  {| hp_time := formatTimeLabel (at_ (hourlyTimes data) i) locale;
     temp := at_ (default [] ((data ≫= hourly) ≫= Hourly.temperature_2m)) i;
     feels := at_ (default [] ((data ≫= hourly) ≫= Hourly.apparent_temperature)) i;
     pop := at_ (default [] ((data ≫= hourly) ≫= Hourly.precipitation_probability)) i;
     iso := at_ (hourlyTimes data) i |}.

(** The timestamp at index [i] is at or after the instant [now]. *)
Definition atOrAfter `{Host} (times : list prim) (now : option Z) (i : nat) : bool :=
  timeGe (DateTimeValue (at_ times i)) now.



(** A time value of [k] milliseconds, as a number. *)
Definition ms (k : positive) : prim := PNum (S754_finite false k 0).

(** A snapshot with six hourly entries at 1000, 2000, ..., 6000 ms, and
    with no apparent temperatures. *)
Definition sixHours : option Json :=
  Some {| results := None;
          address := None;
          hourly := Some
            {| Hourly.time := Some (ms <$> [1000; 2000; 3000; 4000; 5000; 6000]%positive);
               Hourly.temperature_2m :=
                 Some (ms <$> [21; 22; 23; 24; 25; 26]%positive);
               Hourly.apparent_temperature := None;
               Hourly.precipitation_probability :=
                 Some (ms <$> [10; 20; 30; 40; 50; 60]%positive) |};
          daily := None |}.



(** ** Network *)

(** A network on which every request gets the response [r]. *)
Definition respond (r : Response) : Network := {| fetch _ := Ok r |}.

(** A network on which every request fails. *)
Definition offline : Network := {| fetch _ := Throw TypeError |}.

(** A response with status 500. *)
Definition serverError : Response :=
  {| ok := false; status := 500; json := Throw SyntaxError |}.

(** A reverse-geocoding response that names only the country. *)
Definition countryOnly : Response :=
  {| ok := true; status := 200;
     json := Ok (Some {| results := None;
                         address := Some {| city := PUndefined; town := PUndefined;
                                            village := PUndefined; county := PUndefined;
                                            state := PUndefined;
                                            addr_country := PStr "Brasil" |};
                         hourly := None; daily := None |}) |}.

(** [params.get(key)]: the value of the first entry named [key]. *)
Definition paramGet (key : string) (params : list (string * string)) : option string :=
  snd <$> List.find (fun kv => fst kv =? key) params.

(** The number 6, the [count] the search passes to [geocode]. *)
Definition six : prim := PNum (S754_finite false 6 0).

(** * Further vocabulary *)

(** ** Favorites *)

(** No two entries of the list are reported equal by [isSamePlace]. *)
Fixpoint distinctPlaces `{Host} (favs : list value) : bool :=
  match favs with
  | [] => true
  | f :: rest => negb (existsb (sameAs f) rest) && distinctPlaces rest
  end.

(** ** Weather codes *)

(** The integer a number equals, if any ([-0] equals 0). *)
Definition asInteger (x : number) : option Z :=
  match x with
  | S754_zero _ => Some 0%Z
  | S754_finite s m e =>
      if (0 <=? e)%Z then Some (if s then - (Z.pos m * 2 ^ e) else Z.pos m * 2 ^ e)%Z
      else if (Z.pos m mod 2 ^ (- e) =? 0)%Z
           then Some (if s then - (Z.pos m / 2 ^ (- e)) else Z.pos m / 2 ^ (- e))%Z
           else None
  | _ => None
  end.

(** [code === k] for a number [code] and an integer literal [k] *)
Definition strictEq (code : number) (k : Z) : bool :=
  match asInteger code with
  | Some z => (z =? k)%Z
  | None => false
  end.

(** [[k1, k2, ...].includes(code)] *)
Definition includes (ks : list Z) (code : number) : bool :=
  existsb (strictEq code) ks.

(** [wxEmoji(code, isDay)]; [code] is the weather code of the response, a
    number, or [None] for null and undefined. *)
Definition wxEmoji (code : option number) (isDay : bool) : string :=
  match code with
  | None => "❔"
  | Some code =>
      (if strictEq code 0 then (if isDay then "☀️" else "🌙")
      else if includes [1; 2] code then (if isDay then "🌤️" else "☁️")
      else if strictEq code 3 then "☁️"
      else if includes [45; 48] code then "🌫️"
      else if includes [51; 53; 55] code then "🌦️"
      else if includes [56; 57] code then "🌧️"
      else if includes [61; 63; 65] code then "🌧️"
      else if includes [66; 67] code then "🌧️"
      else if includes [71; 73; 75; 77] code then "🌨️"
      else if includes [80; 81; 82] code then "🌧️"
      else if includes [85; 86] code then "🌨️"
      else if includes [95; 96; 99] code then "⛈️"
      else "🌡️")%Z
  end.

(** The object literal [map] of [wxLabelPT]: its keys and values in order. *)
Definition wxLabels : list (Z * string) :=
  [ (0, "Céu limpo");
    (1, "Principalmente limpo");
    (2, "Parcialmente nublado");
    (3, "Nublado");
    (45, "Neblina");
    (48, "Neblina com gelo");
    (51, "Garoa fraca");
    (53, "Garoa moderada");
    (55, "Garoa forte");
    (56, "Garoa congelante fraca");
    (57, "Garoa congelante forte");
    (61, "Chuva fraca");
    (63, "Chuva moderada");
    (65, "Chuva forte");
    (66, "Chuva congelante fraca");
    (67, "Chuva congelante forte");
    (71, "Neve fraca");
    (73, "Neve moderada");
    (75, "Neve forte");
    (77, "Grãos de neve");
    (80, "Pancadas fracas");
    (81, "Pancadas moderadas");
    (82, "Pancadas fortes");
    (85, "Pancadas de neve fracas");
    (86, "Pancadas de neve fortes");
    (95, "Trovoada");
    (96, "Trovoada com granizo fraco");
    (99, "Trovoada com granizo forte") ]%Z.

(** [map[code]] for a number [code]: the value of the property the number
    names, which is the entry of the integer it equals. *)
Definition wxLabelLookup (code : number) : option string :=
  k ← asInteger code;
  snd <$> List.find (fun kv => (fst kv =? k)%Z) wxLabels.

(** [wxLabelPT(code)] *)
Definition wxLabelPT (code : option number) : string :=
  match code with
  | None => "–"
  | Some code =>
      match wxLabelLookup code with
      | Some label => if label =? "" then "Condição variável" else label
      | None => "Condição variável"
      end
  end.

(** ** Labels *)

(** [placeLabel(p)]: the name, the admin region and the country that are
    present, separated by ", ". *)
Definition placeLabel `{Host} (p : value) : string :=
  if negb (truthy p) then ""
  else
    let parts :=
      List.filter truthyPrim
        [getFieldOpt name p; getFieldOpt admin1 p; getFieldOpt country p] in
    join ", " (ToString <$> parts).

(** ** Persistence *)

(** The keys of the three persisted items. *)
Record StorageKeys : Type := {
  sk_favorites : string;
  sk_lastPlace : string;
  sk_settings : string;
}.

Definition STORAGE_KEYS : StorageKeys :=
  {| sk_favorites := "wx_favorites_v1";
     sk_lastPlace := "wx_last_place_v1";
     sk_settings := "wx_settings_v1" |}.

(** [JSON.parse] and [JSON.stringify] on the values of one persisted item;
    [JSONstringify] gives the string [localStorage.setItem] stores. *)
Class JsonCodec (J : Type) : Type := {
  JSONparse : string -> result J;
  JSONstringify : J -> string;
}.

(** The browser environment: [localStorage] as a map from keys to strings,
    or [None] where there is no [window]. *)
Abbreviation environment := (option (gmap string string)).

(** [safeJsonParse(value, fallback)] *)
Definition safeJsonParse {J} `{JsonCodec J} (value : string) (fallback : J) : J :=
  match JSONparse value with
  | Ok v => v
  | Throw _ => fallback
  end.

(** [loadLS(key, fallback)] *)
Definition loadLS {J} `{JsonCodec J} (key : string) (fallback : J)
    (env : environment) : J :=
  match env with
  | None => fallback
  | Some localStorage =>
      match localStorage !! key with
      | Some v => if v =? "" then fallback else safeJsonParse v fallback
      | None => fallback
      end
  end.

(** [saveLS(key, value)] *)
Definition saveLS {J} `{JsonCodec J} (key : string) (value : J)
    (env : environment) : environment :=
  match env with
  | None => None
  | Some localStorage => Some (<[key := JSONstringify value]> localStorage)
  end.

(** A codec for the examples: natural numbers in decimal. *)
Definition decimalCodec : JsonCodec N :=
  {| JSONparse s := match parseDigits s with
                    | Some n => Ok n
                    | None => Throw SyntaxError
                    end;
     JSONstringify := decimalDigits |}.

(** ** The search effect

    The effect [useEffect(() => { ... }, [query])] and the timers and
    requests it leaves behind. Every run of the effect has its own [alive]
    variable; runs are numbered in the order they happen. *)

Definition setSuggestions (res : list value) (st : AppState) : AppState :=
  {| favorites := favorites st; place := place st;
     suggestions := res; isSearching := isSearching st |}.

Definition setIsSearching (b : bool) (st : AppState) : AppState :=
  {| favorites := favorites st; place := place st;
     suggestions := suggestions st; isSearching := b |}.

Definition setPlace (p : value) (st : AppState) : AppState :=
  {| favorites := favorites st; place := p;
     suggestions := suggestions st; isSearching := isSearching st |}.

Record SearchState : Type := {
  (** the state variables the search writes *)
  ui : AppState;
  query : string;
  (** the [alive] variable of every run of the effect, oldest first *)
  alive : list bool;
  (** the run whose cleanup function is registered, if the last run
      returned one *)
  cleanup : option nat;
  (** the timeouts that are set and have not fired: run and query *)
  timers : list (nat * string);
  (** the [geocode] calls that have not settled: run and query *)
  requests : list (nat * string);
}.

(** The [alive] variable of run [r]. *)
Definition aliveOf (s : SearchState) (r : nat) : bool := default false (alive s !! r).

(** The query of the entry of run [r]. *)
Definition findRun (r : nat) (entries : list (nat * string)) : option string :=
  snd <$> List.find (fun t => Nat.eqb (fst t) r) entries.

(** The entries without the one of run [r]. *)
Definition dropRun (r : nat) (entries : list (nat * string)) : list (nat * string) :=
  List.filter (fun t => negb (Nat.eqb (fst t) r)) entries.

(** The cleanup function of the last run: [alive = false; clearTimeout(t)]. *)
Definition runCleanup (s : SearchState) : SearchState :=
  match cleanup s with
  | None => s
  | Some r =>
      {| ui := ui s; query := query s;
         alive := <[r := false]> (alive s);
         cleanup := None;
         timers := dropRun r (timers s);
         requests := requests s |}
  end.

(** The body of the effect for the query [q], up to the [setTimeout]. *)
Definition runEffect `{Host} (q : string) (s : SearchState) : SearchState :=
  let r := length (alive s) in
  if Nat.ltb (utf16Length (trim q)) 2 then
    {| ui := setIsSearching false (setSuggestions [] (ui s)); query := q;
       alive := (alive s ++ [true])%list;
       cleanup := None;
       timers := timers s;
       requests := requests s |}
  else
    {| ui := setIsSearching true (ui s); query := q;
       alive := (alive s ++ [true])%list;
       cleanup := Some r;
       timers := (timers s ++ [(r, q)])%list;
       requests := requests s |}.

Inductive SearchEvent : Type :=
  (** [setQuery(q)] from the input *)
  | SetQuery (q : string)
  (** a suggestion is picked, or [locateMe] has found the place:
      [setPlace(p); setSuggestions([]); setQuery("")] *)
  | Pick (p : value)
  (** the timeout of run [r] fires and its callback calls [geocode] *)
  | TimerFires (r : nat)
  (** the [geocode] call of run [r] settles and the callback resumes *)
  | Settles (r : nat).

(** A new query runs the cleanup of the last run and then the effect; the
    same query leaves the dependency unchanged. *)
Definition changeQuery `{Host} (q : string) (s : SearchState) : SearchState :=
  if q =? query s then s else runEffect q (runCleanup s).

Definition withUi (f : AppState -> AppState) (s : SearchState) : SearchState :=
  {| ui := f (ui s); query := query s; alive := alive s; cleanup := cleanup s;
     timers := timers s; requests := requests s |}.

Definition searchStep `{Host} `{Network} (s : SearchState) (ev : SearchEvent)
  : SearchState :=
  match ev with
  | SetQuery q => changeQuery q s
  | Pick p => changeQuery "" (withUi (fun st => setSuggestions [] (setPlace p st)) s)
  | TimerFires r =>
      match findRun r (timers s) with
      | Some q =>
          {| ui := ui s; query := query s; alive := alive s; cleanup := cleanup s;
             timers := dropRun r (timers s);
             requests := (requests s ++ [(r, q)])%list |}
      | None => s
      end
  | Settles r =>
      match findRun r (requests s) with
      | Some q =>
          {| ui := searchCallback q (aliveOf s r) (ui s);
             query := query s; alive := alive s; cleanup := cleanup s;
             timers := timers s;
             requests := dropRun r (requests s) |}
      | None => s
      end
  end.

(** The state after the first render, with [favs] and [p] loaded from the
    storage: the effect has run once for the empty query. *)
Definition mounted `{Host} (favs : list value) (p : value) : SearchState :=
  runEffect ""
    {| ui := {| favorites := favs; place := p; suggestions := []; isSearching := false |};
       query := ""; alive := []; cleanup := None; timers := []; requests := [] |}.

(** The state after a sequence of events. *)
Definition searchRun `{Host} `{Network} (favs : list value) (p : value)
    (events : list SearchEvent) : SearchState :=
  fold_left searchStep events (mounted favs p).

(** A timeout is set or a request is in flight for a run that is alive. *)
Definition livePending (s : SearchState) : bool :=
  existsb (fun t => aliveOf s (fst t)) (timers s ++ requests s)%list.

(** What every reachable state of the search satisfies. *)
Record SearchInv `{Host} (s : SearchState) : Prop := {
  inv_timers :
    Forall (fun t => cleanup s = Some (fst t) /\ snd t = query s
                     /\ aliveOf s (fst t) = true
                     /\ 2 <= utf16Length (trim (snd t))) (timers s);
  inv_requests :
    Forall (fun t => 2 <= utf16Length (trim (snd t))
                     /\ (aliveOf s (fst t) = true ->
                         cleanup s = Some (fst t) /\ snd t = query s)) (requests s);
  inv_nodup : NoDup (fst <$> (timers s ++ requests s)%list);
  inv_fresh : Forall (fun t => fst t < length (alive s)) (timers s ++ requests s)%list;
  inv_spinner : isSearching (ui s) = livePending s;
}.

(** The state between the cleanup of one run and the next run: nothing is
    registered, no timeout is set and no request belongs to a run that is
    alive. *)
Record SearchQuiet `{Host} (s : SearchState) : Prop := {
  quiet_cleanup : cleanup s = None;
  quiet_timers : timers s = [];
  quiet_requests :
    Forall (fun t => 2 <= utf16Length (trim (snd t)) /\ aliveOf s (fst t) = false)
      (requests s);
  quiet_nodup : NoDup (fst <$> requests s);
  quiet_fresh : Forall (fun t => fst t < length (alive s)) (requests s);
}.

(** ** Loading the forecast and locating the user *)





(** [loadForecast(nextPlace)] is an async function: it runs to its
    [await], and resumes when the request has settled. Between the two,
    other handlers may write the same state variables. *)











(** ** Formatting *)

(** [Number.isNaN(x)] *)
Definition isNaN (x : number) : bool :=
  match x with
  | S754_nan => true
  | _ => false
  end.

(** The number of the integer [k]. *)
Definition intNum (k : Z) : number :=
  match k with
  | Z0 => S754_zero false
  | Zpos p => S754_finite false p 0
  | Zneg p => S754_finite true p 0
  end.

(** [Math.round(x)]: the integer closest to [x], the larger one on a tie;
    a result of zero keeps the sign of [x]. *)
Definition mathRound (x : number) : number :=
  match x with
  | S754_finite s m e =>
      let z := (if s then - Z.pos m else Z.pos m)%Z in
      let r := (if 0 <=? e then z * 2 ^ e
                else (2 * z + 2 ^ (- e)) / 2 ^ (1 - e))%Z in
      match r with
      | Z0 => S754_zero s
      | _ => intNum r
      end
  | _ => x
  end.

(** [formatTemp(t)]; [t] is a number, or [None] for null and undefined. *)
Definition formatTemp `{Host} (t : option number) : string :=
  match t with
  | None => "–"
  | Some t =>
      if isNaN t then "–"
      else NumberToString (mathRound t) ++ "°"
  end.

(** [formatSpeed(v, unit)] *)
Definition formatSpeed `{Host} (v : option number) (unit : prim) : string :=
  match v with
  | None => "–"
  | Some v =>
      if isNaN v then "–"
      else if primEqStr unit "imperial"
           then NumberToString (mathRound v) ++ " mph"
           else NumberToString (mathRound v) ++ " km/h"
  end.

(** ** Background gradient *)

(** A finite number as an integer times a power of two. *)
Definition parts (x : number) : Z * Z :=
  match x with
  | S754_finite s m e => ((if s then - Z.pos m else Z.pos m)%Z, e)
  | _ => (0%Z, 0%Z)
  end.

(** The order of two numbers, [None] when one of them is NaN. *)
Definition numCompare (x y : number) : option comparison :=
  match x, y with
  | S754_nan, _ | _, S754_nan => None
  | S754_infinity sx, S754_infinity sy =>
      Some (if sx then (if sy then Eq else Lt) else (if sy then Gt else Eq))
  | S754_infinity sx, _ => Some (if sx then Lt else Gt)
  | _, S754_infinity sy => Some (if sy then Gt else Lt)
  | _, _ =>
      let e0 := Z.min (snd (parts x)) (snd (parts y)) in
      Some (fst (parts x) * 2 ^ (snd (parts x) - e0)
              ?= fst (parts y) * 2 ^ (snd (parts y) - e0))%Z
  end.

(** [x < y] *)
Definition numLt (x y : number) : bool :=
  match numCompare x y with
  | Some Lt => true
  | _ => false
  end.

Definition isZeroWithSign (s : bool) (x : number) : bool :=
  match x with
  | S754_zero s' => Bool.eqb s s'
  | _ => false
  end.

(** [Math.min(x, y)]: NaN when one of them is; [-0] is below [+0]. *)
Definition mathMin (x y : number) : number :=
  match numCompare x y with
  | None => NaN
  | Some Lt => x
  | Some Gt => y
  | Some Eq => if isZeroWithSign true y then y else x
  end.

(** [Math.max(x, y)] *)
Definition mathMax (x y : number) : number :=
  match numCompare x y with
  | None => NaN
  | Some Lt => y
  | Some Gt => x
  | Some Eq => if isZeroWithSign false y then y else x
  end.

(** [clamp(n, a, b)] *)
Definition clamp (n a b : number) : number := mathMax a (mathMin b n).

(** The classes of [bgGradientFromTemp] for a temperature that is or is
    not [cool] and [hot]. *)
Definition gradientFor (cool hot isDay : bool) (theme : prim) : string :=
  if primEqStr theme "dark" then
    if negb isDay then "from-zinc-950 via-zinc-950 to-indigo-950"
    else if hot then "from-zinc-950 to-amber-900"
    else if cool then "from-zinc-900 via-sky-900 to-sky-500"
    else "from-zinc-900 via-zinc-950 to-gray-900"
  else
    let base := "from-white via-white" in
    if negb isDay then base ++ " to-indigo-100"
    else if hot then base ++ " to-amber-100"
    else if cool then base ++ " to-sky-100"
    else base ++ " to-emerald-50".

(** [bgGradientFromTemp(tempC, isDay, theme)]; [tempC] is a number, or
    [None] for null and undefined. *)
Definition bgGradientFromTemp (tempC : option number) (isDay : bool) (theme : prim)
  : string :=
  let t := clamp (default (intNum 20) tempC) (intNum (-5)) (intNum 40) in
  let cool := numLt t (intNum 14) in
  let hot := numLt (intNum 28) t in
  gradientFor cool hot isDay theme.

(** * Properties *)

(** ** Strings *)

Lemma length_append (s t : string) :
  String.length (s ++ t) = String.length s + String.length t.
Proof. induction s as [|c s IH]; simpl; [reflexivity | now rewrite IH]. Qed.

Lemma length_repeatChar c k : String.length (repeatChar c k) = k.
Proof. induction k; simpl; congruence. Qed.

Lemma append_inj_length (s1 s2 t1 t2 : string) :
  String.length s1 = String.length s2 ->
  s1 ++ t1 = s2 ++ t2 -> s1 = s2 /\ t1 = t2.
Proof.
  revert s2. induction s1 as [|c s1 IH]; intros [|d s2]; simpl; try discriminate.
  - auto.
  - intros Hlen Heq. injection Hlen as Hlen. injection Heq as -> Heq.
    destruct (IH _ Hlen Heq) as [-> ->]. auto.
Qed.

Lemma substring_split (k : nat) (s : string) :
  substring 0 k s ++ substring k (String.length s - k) s = s.
Proof.
  revert s. induction k as [|k IH]; intros s.
  - rewrite Nat.sub_0_r. simpl. destruct s as [|c s]; [reflexivity|].
    simpl. f_equal. clear. induction s as [|d s IH]; simpl; congruence.
  - destruct s as [|c s]; simpl; [reflexivity|]. now rewrite IH.
Qed.

Lemma length_substring_prefix (k : nat) (s : string) :
  k <= String.length s -> String.length (substring 0 k s) = k.
Proof.
  revert s. induction k as [|k IH]; intros [|c s]; simpl; intros Hk;
    try reflexivity; try lia.
  rewrite IH; lia.
Qed.

Lemma allChars_append P s t :
  allChars P (s ++ t) = allChars P s && allChars P t.
Proof.
  induction s as [|c s IH]; simpl; [reflexivity|].
  now rewrite IH, andb_assoc.
Qed.

Lemma allChars_substring P i k s :
  allChars P s = true -> allChars P (substring i k s) = true.
Proof.
  revert i k. induction s as [|c s IH]; intros i k Hs.
  - destruct i, k; reflexivity.
  - simpl in Hs. apply andb_true_iff in Hs as [Hc Hs].
    destruct i as [|i]; [destruct k as [|k]|]; simpl; auto.
    rewrite Hc. simpl. auto.
Qed.

Lemma allChars_repeatChar P c k : P c = true -> allChars P (repeatChar c k) = true.
Proof. intros Hc. induction k; simpl; [reflexivity | now rewrite Hc]. Qed.

Lemma allChars_impl (P Q : ascii -> bool) s :
  (forall c, P c = true -> Q c = true) ->
  allChars P s = true -> allChars Q s = true.
Proof.
  intros HPQ. induction s as [|c s IH]; simpl; [reflexivity|].
  intros H. apply andb_true_iff in H as [Hc Hs].
  now rewrite (HPQ _ Hc), IH.
Qed.

(** Two strings cut at the first occurrence of a separator agree on both
    sides of it. *)
Lemma append_sep_inj (c : ascii) (s1 s2 t1 t2 : string) :
  allChars (fun x => negb (x =? c)%char) s1 = true ->
  allChars (fun x => negb (x =? c)%char) s2 = true ->
  s1 ++ String c t1 = s2 ++ String c t2 -> s1 = s2 /\ t1 = t2.
Proof.
  revert s2. induction s1 as [|a s1 IH]; intros [|b s2]; simpl; intros H1 H2 Heq.
  - injection Heq as ->. auto.
  - injection Heq as <- _. rewrite Ascii.eqb_refl in H2. discriminate.
  - injection Heq as -> _. rewrite Ascii.eqb_refl in H1. discriminate.
  - injection Heq as -> Heq.
    apply andb_true_iff in H1 as [_ H1]. apply andb_true_iff in H2 as [_ H2].
    destruct (IH _ H1 H2 Heq) as [-> ->]. auto.
Qed.

(** ** Decimal digits *)

Lemma allChars_string_of_uint d :
  allChars isDigit (NilEmpty.string_of_uint d) = true.
Proof. induction d; simpl; auto. Qed.

Lemma string_of_uint_NilZero d :
  d <> Decimal.Nil -> NilZero.string_of_uint d = NilEmpty.string_of_uint d.
Proof. destruct d; simpl; congruence. Qed.

Lemma to_uint_nonnil (n : N) : N.to_uint n <> Decimal.Nil.
Proof.
  destruct n as [|p]; simpl; [discriminate|].
  apply DecimalPos.Unsigned.to_uint_nonnil.
Qed.

Lemma decimalDigits_eq n : decimalDigits n = NilEmpty.string_of_uint (N.to_uint n).
Proof. unfold decimalDigits. apply string_of_uint_NilZero, to_uint_nonnil. Qed.

Lemma parseDigits_zeros k d :
  parseDigits (repeatChar "0" k ++ NilEmpty.string_of_uint d) = Some (N.of_uint d).
Proof.
  unfold parseDigits. induction k as [|k IH]; simpl.
  - now rewrite NilEmpty.usu.
  - destruct (NilEmpty.uint_of_string
                (repeatChar "0" k ++ NilEmpty.string_of_uint d)) as [u|];
      simpl in *; congruence.
Qed.

Lemma parseDigits_decimalDigits k n :
  parseDigits (repeatChar "0" k ++ decimalDigits n) = Some n.
Proof.
  rewrite decimalDigits_eq, parseDigits_zeros.
  now rewrite DecimalN.Unsigned.of_to.
Qed.

Lemma decimalDigits_nonempty n : 1 <= String.length (decimalDigits n).
Proof.
  rewrite decimalDigits_eq. pose proof (to_uint_nonnil n) as H.
  destruct (N.to_uint n); simpl; try lia. congruence.
Qed.

(** ** The fixed-point notation *)

Lemma length_padded f n : f + 1 <= String.length (padded f n).
Proof.
  unfold padded. rewrite length_append, length_repeatChar.
  pose proof (decimalDigits_nonempty n). lia.
Qed.

Lemma fixedDigits_padded f n :
  f <> 0 ->
  fixedDigits f n =
    substring 0 (String.length (padded f n) - f) (padded f n) ++ "."
      ++ substring (String.length (padded f n) - f) f (padded f n).
Proof.
  intros Hf. unfold fixedDigits, padded.
  destruct (Nat.eqb_spec f 0) as [|_]; [contradiction|].
  cbv zeta. set (m := decimalDigits n).
  destruct (Nat.leb_spec (String.length m) f) as [Hle|Hlt].
  - rewrite length_append, length_repeatChar.
    replace (f + 1 - String.length m + String.length m) with (f + 1) by lia.
    reflexivity.
  - replace (f + 1 - String.length m) with 0 by lia. reflexivity.
Qed.

Lemma allChars_padded f n : allChars isDigit (padded f n) = true.
Proof.
  unfold padded. rewrite allChars_append, allChars_repeatChar by reflexivity.
  rewrite decimalDigits_eq. apply allChars_string_of_uint.
Qed.

Lemma allChars_fixedDigits f n : allChars fixedChar (fixedDigits f n) = true.
Proof.
  assert (Hd : forall s, allChars isDigit s = true -> allChars fixedChar s = true).
  { intros s. apply allChars_impl. intros c Hc. unfold fixedChar. now rewrite Hc. }
  destruct (Nat.eq_dec f 0) as [->|Hf].
  - unfold fixedDigits. simpl. apply Hd. rewrite decimalDigits_eq.
    apply allChars_string_of_uint.
  - rewrite fixedDigits_padded by assumption.
    rewrite !allChars_append. simpl.
    rewrite !Hd by (apply allChars_substring, allChars_padded). reflexivity.
Qed.

Lemma fixedDigits_inj f n1 n2 : fixedDigits f n1 = fixedDigits f n2 -> n1 = n2.
Proof.
  intros Heq.
  assert (Hp : padded f n1 = padded f n2 \/ decimalDigits n1 = decimalDigits n2).
  { destruct (Nat.eq_dec f 0) as [->|Hf]; [right; exact Heq|left].
    rewrite !fixedDigits_padded in Heq by assumption.
    pose proof (length_padded f n1) as L1. pose proof (length_padded f n2) as L2.
    set (p1 := padded f n1) in *. set (p2 := padded f n2) in *.
    assert (Hlen : String.length p1 = String.length p2).
    { apply (f_equal String.length) in Heq.
      rewrite !length_append, !length_substring_prefix in Heq by lia.
      simpl in Heq.
      pose proof (substring_split (String.length p1 - f) p1) as S1.
      pose proof (substring_split (String.length p2 - f) p2) as S2.
      apply (f_equal String.length) in S1, S2.
      rewrite length_append, length_substring_prefix in S1, S2 by lia.
      replace (String.length p1 - (String.length p1 - f)) with f in S1 by lia.
      replace (String.length p2 - (String.length p2 - f)) with f in S2 by lia.
      lia. }
    apply append_inj_length in Heq as [Ha Hb];
      [|rewrite !length_substring_prefix; lia].
    injection Hb as Hb.
    rewrite <- (substring_split (String.length p1 - f) p1).
    rewrite <- (substring_split (String.length p2 - f) p2).
    replace (String.length p1 - (String.length p1 - f)) with f by lia.
    replace (String.length p2 - (String.length p2 - f)) with f by lia.
    now rewrite Ha, Hb. }
  assert (Some n1 = Some n2) as [= ->]; [|reflexivity].
  destruct Hp as [Hp|Hp].
  - unfold padded in Hp. cbv zeta in Hp.
    rewrite <- (parseDigits_decimalDigits
                  (f + 1 - String.length (decimalDigits n1)) n1), Hp.
    apply parseDigits_decimalDigits.
  - rewrite <- (parseDigits_decimalDigits 0 n1). simpl. rewrite Hp.
    apply (parseDigits_decimalDigits 0 n2).
Qed.

(** ** Rounding to a fixed number of decimals *)

(** [scaled] is the rounding Number.prototype.toFixed prescribes: the
    nearest integer to [m * 2^e * 10^f], the larger one on a tie. *)
Lemma scaled_nearest (f : nat) (m : positive) (e : Z) :
  let p := (Z.pos m * 10 ^ Z.of_nat f)%Z in
  let n := Z.of_N (scaled f m e) in
  ((0 <= e -> n = p * 2 ^ e) /\
   (e < 0 -> 2 * p - 2 ^ (- e) < 2 * (n * 2 ^ (- e)) <= 2 * p + 2 ^ (- e)))%Z.
Proof.
  cbv zeta. unfold scaled.
  assert (Hp : (0 < Z.pos m * 10 ^ Z.of_nat f)%Z).
  { apply Z.mul_pos_pos; [lia|]. apply Z.pow_pos_nonneg; lia. }
  set (p := (Z.pos m * 10 ^ Z.of_nat f)%Z) in *.
  destruct (Z.leb_spec 0 e) as [He|He]; split; intros He'; try lia.
  assert (Hk : (0 < 2 ^ (- e))%Z) by (apply Z.pow_pos_nonneg; lia).
  replace (1 - e)%Z with (Z.succ (- e)) by lia.
  rewrite Z.pow_succ_r by lia.
  set (k := (2 ^ (- e))%Z) in *.
  assert (Hb : (0 < 2 * k)%Z) by lia.
  pose proof (Z.mul_div_le (2 * p + k) (2 * k) Hb) as Hlo.
  pose proof (Z.mul_succ_div_gt (2 * p + k) (2 * k) Hb) as Hhi.
  assert (Hq : (0 <= (2 * p + k) / (2 * k))%Z) by (apply Z.div_pos; lia).
  rewrite Z2N.id by assumption.
  set (q := ((2 * p + k) / (2 * k))%Z) in *. nia.
Qed.

Lemma absLe_fixedRange (x : number) (k : Z) :
  (k < 10 ^ 21)%Z -> absLe x k = true -> fixedRange x = true.
Proof.
  intros Hk. destruct x as [s| | |s m e]; simpl; try easy.
  unfold atLeast1e21. destruct (Z.leb_spec 0 e) as [He|He]; intros Hle.
  - apply Z.leb_le in Hle. apply negb_true_iff, Z.leb_gt. lia.
  - apply Z.leb_le in Hle. apply negb_true_iff, Z.leb_gt.
    assert (0 < 2 ^ (- e))%Z by (apply Z.pow_pos_nonneg; lia). nia.
Qed.

Lemma fixedChar_not (c d : ascii) :
  fixedChar d = false -> fixedChar c = true -> negb (c =? d)%char = true.
Proof.
  intros Hd Hc. destruct (Ascii.eqb_spec c d) as [->|]; [congruence|reflexivity].
Qed.

Section ToFixed.
Context `{Host}.

Lemma toFixed_fixedRange (x : number) (f : nat) :
  fixedRange x = true ->
  toFixed x f = (if isNegative x then "-" else "") ++ fixedDigits f (magnitude x f).
Proof.
  destruct x as [s| | |s m e]; simpl; try easy.
  intros Hr. apply negb_true_iff in Hr. now rewrite Hr.
Qed.

Lemma toFixed_eq_iff (x y : number) (f : nat) :
  fixedRange x = true -> fixedRange y = true ->
  toFixed x f = toFixed y f <->
  isNegative x = isNegative y /\ magnitude x f = magnitude y f.
Proof.
  intros Hx Hy. rewrite !toFixed_fixedRange by assumption.
  split.
  - pose proof (allChars_fixedDigits f (magnitude x f)) as Cx.
    pose proof (allChars_fixedDigits f (magnitude y f)) as Cy.
    destruct (isNegative x), (isNegative y); simpl; intros Heq.
    + injection Heq as Heq. eauto using fixedDigits_inj.
    + rewrite <- Heq in Cy. discriminate.
    + rewrite Heq in Cx. discriminate.
    + eauto using fixedDigits_inj.
  - intros [-> ->]. reflexivity.
Qed.

Lemma allChars_toFixed (x : number) (f : nat) :
  fixedRange x = true ->
  allChars (fun c => negb (c =? ":")%char) (toFixed x f) = true.
Proof.
  intros Hx. rewrite toFixed_fixedRange by assumption.
  rewrite allChars_append.
  rewrite (allChars_impl fixedChar _ (fixedDigits f (magnitude x f))
             (fun c => fixedChar_not c ":" eq_refl))
    by apply allChars_fixedDigits.
  now destruct (isNegative x).
Qed.

End ToFixed.

Lemma sameFixed_spec (f : nat) (x y : number) :
  sameFixed f x y = true <->
  isNegative x = isNegative y /\ magnitude x f = magnitude y f.
Proof.
  unfold sameFixed, round.
  destruct (isNegative x), (isNegative y); simpl;
    (destruct (Z.eqb_spec (Z.of_N (magnitude x f)) 0) as [Hx|Hx] ||
     destruct (Z.eqb_spec (- Z.of_N (magnitude x f)) 0) as [Hx|Hx]);
    simpl; rewrite ?andb_true_r, ?andb_false_r; split;
    try (intros Hr; apply Z.eqb_eq in Hr);
    try (intros [Hs Hm]); try discriminate; try lia;
    try (split; [reflexivity | lia]);
    try (apply Z.eqb_eq; lia).
Qed.

(** ** Place equality *)

Section PlaceEquality.
Context `{Host}.

Lemma coordKey_valid (o : Place) :
  validPlace o = true ->
  coordKey (VObj o) =
    Ok (toFixed (coordinate (latitude o)) 4 ++ ":"
          ++ toFixed (coordinate (longitude o)) 4)
  /\ fixedRange (coordinate (latitude o)) = true
  /\ fixedRange (coordinate (longitude o)) = true.
Proof.
  unfold validPlace, coordKey. simpl.
  destruct (latitude o) as [| | |x|]; try discriminate.
  destruct (longitude o) as [| | |y|]; try discriminate.
  intros Hv. apply andb_true_iff in Hv as [Hx Hy]. simpl.
  repeat split; eapply absLe_fixedRange; eauto; reflexivity.
Qed.

(** C1 (as amended): on two place records that satisfy the invariant of the
    data model, [isSamePlace] returns true exactly when both latitudes and
    both longitudes have the same 4-decimal rendering: they round to the
    same value at 4 decimal places and, where that value is zero, lie on the
    same side of zero (a negative coordinate that rounds to zero is rendered
    as -0.0000, a non-negative one as 0.0000). *)
Theorem isSamePlace_sameFixed (a b : Place) :
  validPlace a = true -> validPlace b = true ->
  isSamePlace (VObj a) (VObj b) =
    Ok (sameFixed 4 (coordinate (latitude a)) (coordinate (latitude b))
        && sameFixed 4 (coordinate (longitude a)) (coordinate (longitude b))).
Proof.
  intros Ha Hb.
  destruct (coordKey_valid a Ha) as (Ka & Ra1 & Ra2).
  destruct (coordKey_valid b Hb) as (Kb & Rb1 & Rb2).
  unfold isSamePlace. simpl. rewrite Ka, Kb. simpl. f_equal.
  apply eq_true_iff_eq.
  rewrite String.eqb_eq, andb_true_iff, !sameFixed_spec.
  rewrite <- !toFixed_eq_iff by assumption.
  split.
  - intros Heq. apply append_sep_inj in Heq; auto using allChars_toFixed.
  - intros [-> ->]. reflexivity.
Qed.

(** C9: [isSamePlace] returns false as soon as one argument is null or
    otherwise falsy, also for two nulls; so with no current place selected
    no place is reported as a favorite and no favorite chip is active. *)
Theorem isSamePlace_falsy :
  (forall a b : value,
     truthy a = false \/ truthy b = false -> isSamePlace a b = Ok false)
  /\ isSamePlace (VPrim PNull) (VPrim PNull) = Ok false
  /\ (forall st : AppState,
        truthy (place st) = false -> isFavorite st = Ok false)
  /\ (forall current p : value,
        truthy current = false ->
        exists active, chipActive current p = Ok active /\ truthy active = false).
Proof.
  assert (Hfalsy : forall a b : value,
            truthy a = false \/ truthy b = false -> isSamePlace a b = Ok false).
  { intros a b [Ha|Hb]; unfold isSamePlace.
    - now rewrite Ha.
    - rewrite Hb. now rewrite orb_true_r. }
  split; [|split; [|split]].
  - exact Hfalsy.
  - reflexivity.
  - intros st Hp. unfold isFavorite.
    induction (favorites st) as [|f fs IH]; simpl; [reflexivity|].
    rewrite Hfalsy by auto. simpl. exact IH.
  - intros current p Hc. exists current. unfold chipActive. now rewrite Hc.
Qed.

End PlaceEquality.

(** C1 (as stated) fails: the two places across the equator satisfy the
    invariant and their coordinates round to the same values at 4 decimal
    places, yet [isSamePlace] returns false, because the keys are
    "-0.0000:37.0000" and "0.0000:37.0000". *)
Lemma isSamePlace_rounding_counterexample :
  validPlace southOfEquator = true /\ validPlace northOfEquator = true
  /\ valid_binary 53 1024 (coordinate (latitude southOfEquator)) = true
  /\ valid_binary 53 1024 (coordinate (latitude northOfEquator)) = true
  /\ coordKey (H := exampleHost) (VObj southOfEquator) = Ok "-0.0000:37.0000"
  /\ coordKey (H := exampleHost) (VObj northOfEquator) = Ok "0.0000:37.0000"
  /\ ~ (isSamePlace (H := exampleHost) (VObj southOfEquator) (VObj northOfEquator)
          = Ok true
        <-> round (coordinate (latitude southOfEquator)) 4
              = round (coordinate (latitude northOfEquator)) 4
            /\ round (coordinate (longitude southOfEquator)) 4
              = round (coordinate (longitude northOfEquator)) 4).
Proof.
  repeat split; try (vm_compute; reflexivity).
  intros [_ Hback].
  assert (Hr : isSamePlace (H := exampleHost) (VObj southOfEquator)
                 (VObj northOfEquator) = Ok true)
    by (apply Hback; split; vm_compute; reflexivity).
  vm_compute in Hr. discriminate.
Qed.

Lemma isSamePlace_sameFixed_witness :
  isSamePlace (H := exampleHost) (VObj saoPaulo) (VObj saoPaulo) = Ok true.
Proof.
  exact (isSamePlace_sameFixed (H := exampleHost) saoPaulo saoPaulo
           eq_refl eq_refl).
Defined.

Lemma isSamePlace_falsy_witness :
  isSamePlace (H := exampleHost) (VPrim PNull) (VObj saoPaulo) = Ok false.
Proof.
  exact (proj1 (isSamePlace_falsy (H := exampleHost))
           (VPrim PNull) (VObj saoPaulo) (or_introl eq_refl)).
Defined.

(** ** Favorites store *)

Section ArrayFacts.
Context {A : Type}.

Lemma some_pure (cb : A -> result bool) (g : A -> bool) (arr : list A) :
  Forall (fun x => cb x = Ok (g x)) arr -> some cb arr = Ok (existsb g arr).
Proof.
  induction 1 as [|x arr Hx _ IH]; simpl; [reflexivity|].
  rewrite Hx. simpl. destruct (g x); [reflexivity | exact IH].
Qed.

Lemma filter_pure (cb : A -> result bool) (g : A -> bool) (arr : list A) :
  Forall (fun x => cb x = Ok (g x)) arr -> filter cb arr = Ok (List.filter g arr).
Proof.
  induction 1 as [|x arr Hx _ IH]; simpl; [reflexivity|].
  rewrite Hx, IH. simpl. now destruct (g x).
Qed.

Lemma length_filter_le (g : A -> bool) (arr : list A) :
  length (List.filter g arr) <= length arr.
Proof. induction arr as [|x arr IH]; simpl; [lia|]. destruct (g x); simpl; lia. Qed.

Lemma filter_negb_id (g : A -> bool) (arr : list A) :
  existsb g arr = false -> List.filter (fun x => negb (g x)) arr = arr.
Proof.
  induction arr as [|x arr IH]; simpl; [reflexivity|].
  intros Hx. apply orb_false_iff in Hx as [-> Hx]. simpl. now rewrite IH.
Qed.

Lemma existsb_filter_negb (g : A -> bool) (arr : list A) :
  existsb g (List.filter (fun x => negb (g x)) arr) = false.
Proof.
  induction arr as [|x arr IH]; simpl; [reflexivity|].
  destruct (g x) eqn:Hx; simpl; [exact IH | now rewrite Hx].
Qed.

Lemma Forall_filter_pure (P : A -> Prop) (g : A -> bool) (arr : list A) :
  Forall P arr -> Forall P (List.filter g arr).
Proof.
  induction 1 as [|x arr Hx _ IH]; simpl; [constructor|].
  destruct (g x); [constructor|]; assumption.
Qed.

End ArrayFacts.

Section Favorites.
Context `{Host}.

Lemma isSamePlace_numeric (a b : value) :
  numericPlace a = true -> numericPlace b = true ->
  isSamePlace a b = Ok (sameAs b a).
Proof.
  unfold sameAs, isSamePlace, coordKey.
  destruct a as [|a], b as [|b]; simpl; try discriminate.
  destruct (latitude a), (longitude a); try discriminate.
  destruct (latitude b), (longitude b); try discriminate.
  reflexivity.
Qed.

Lemma sameAs_refl (p : value) : numericPlace p = true -> sameAs p p = true.
Proof.
  unfold sameAs, isSamePlace, coordKey.
  destruct p as [|p]; simpl; try discriminate.
  destruct (latitude p), (longitude p); try discriminate.
  intros _. simpl. apply String.eqb_refl.
Qed.

Lemma Forall_isSamePlace (p : value) (arr : list value) :
  numericPlace p = true ->
  Forall (fun f => numericPlace f = true) arr ->
  Forall (fun f => isSamePlace f p = Ok (sameAs p f)) arr
  /\ Forall (fun f => (b ← isSamePlace f p; Ok (negb b)) = Ok (negb (sameAs p f))) arr.
Proof.
  intros Hp Harr. split; eapply Forall_impl; try exact Harr; simpl; intros f Hf.
  - now apply isSamePlace_numeric.
  - now rewrite isSamePlace_numeric.
Qed.

(** The updater on lists of place records, as a function on lists. *)
Lemma toggleUpdater_numeric (p : value) (prev : list value) :
  numericPlace p = true ->
  Forall (fun f => numericPlace f = true) prev ->
  toggleUpdater p prev =
    Ok (if existsb (sameAs p) prev
        then List.filter (fun f => negb (sameAs p f)) prev
        else take 12 (p :: prev)).
Proof.
  intros Hp Hprev. destruct (Forall_isSamePlace p prev Hp Hprev) as [Hs Hf].
  unfold toggleUpdater.
  rewrite (some_pure _ _ _ Hs). simpl.
  destruct (existsb (sameAs p) prev); [|reflexivity].
  apply (filter_pure _ _ _ Hf).
Qed.

Lemma toggleFavorite_numeric (p : value) (st : AppState) :
  numericPlace p = true ->
  toggleFavorite p st = setFavorites (toggleUpdater p) st.
Proof.
  unfold toggleFavorite. destruct p as [v|o]; simpl; [discriminate|reflexivity].
Qed.

Lemma hasPlace_numeric (p : value) (favs : list value) :
  numericPlace p = true ->
  Forall (fun f => numericPlace f = true) favs ->
  hasPlace p favs = Ok (existsb (sameAs p) favs).
Proof.
  intros Hp Hfavs. apply some_pure. now apply Forall_isSamePlace.
Qed.

(** C5: toggling a place on a favorites list of at most 12 place records
    gives a list of at most 12 entries; on a list of exactly 12 that does
    not hold the place, the new place comes first, the last entry is
    evicted and the others keep their order. *)
Theorem toggleFavorite_bounded (p : value) (st : AppState) :
  numericPlace p = true ->
  Forall (fun f => numericPlace f = true) (favorites st) ->
  length (favorites st) <= 12 ->
  exists st',
    toggleFavorite p st = Ok st'
    /\ length (favorites st') <= 12
    /\ (forall (older : list value) (oldest : value),
          favorites st = (older ++ [oldest])%list ->
          length (favorites st) = 12 ->
          hasPlace p (favorites st) = Ok false ->
          favorites st' = p :: older).
Proof.
  intros Hp Hfavs Hlen.
  rewrite toggleFavorite_numeric by assumption. unfold setFavorites.
  rewrite toggleUpdater_numeric by assumption. simpl.
  eexists. split; [reflexivity|]. simpl. split.
  - destruct (existsb (sameAs p) (favorites st)).
    + pose proof (length_filter_le (fun f => negb (sameAs p f)) (favorites st)). lia.
    + simpl. rewrite length_take. lia.
  - intros older oldest Hsplit Hfull Habsent.
    rewrite hasPlace_numeric in Habsent by assumption.
    injection Habsent as ->.
    rewrite Hsplit in Hfull |- *. rewrite length_app in Hfull. simpl in Hfull.
    change (take 12 (p :: older ++ [oldest])%list) with (p :: take 11 (older ++ [oldest])%list).
    rewrite take_app_length' by lia. reflexivity.
Qed.

(** C2 (as amended): on a favorites list of place records, toggling the
    same place twice restores whether the list holds it; when the list did
    not hold the place and has fewer than 12 entries, the two toggles give
    back the list itself, same contents in the same order. *)
Theorem toggleFavorite_twice (p : value) (st : AppState) :
  numericPlace p = true ->
  Forall (fun f => numericPlace f = true) (favorites st) ->
  exists st1 st2,
    toggleFavorite p st = Ok st1
    /\ toggleFavorite p st1 = Ok st2
    /\ hasPlace p (favorites st2) = hasPlace p (favorites st)
    /\ (hasPlace p (favorites st) = Ok false ->
        length (favorites st) < 12 -> st2 = st).
Proof.
  intros Hp Hfavs.
  rewrite toggleFavorite_numeric by assumption. unfold setFavorites at 1.
  rewrite toggleUpdater_numeric by assumption. simpl.
  eexists. eexists. split; [reflexivity|].
  rewrite toggleFavorite_numeric by assumption. unfold setFavorites. simpl.
  assert (Hfavs1 : Forall (fun f => numericPlace f = true)
                     (if existsb (sameAs p) (favorites st)
                      then List.filter (fun f => negb (sameAs p f)) (favorites st)
                      else take 12 (p :: favorites st))).
  { destruct (existsb (sameAs p) (favorites st)).
    - now apply Forall_filter_pure.
    - apply Forall_take. now constructor. }
  rewrite toggleUpdater_numeric by assumption. simpl.
  split; [reflexivity|]. simpl.
  rewrite (hasPlace_numeric p (favorites st)) by assumption.
  destruct (existsb (sameAs p) (favorites st)) eqn:Hex.
  - rewrite existsb_filter_negb. split; [|discriminate].
    rewrite hasPlace_numeric.
    + simpl. now rewrite sameAs_refl.
    + assumption.
    + constructor; [assumption|]. now apply Forall_take.
  - change (take 12 (p :: favorites st)) with (p :: take 11 (favorites st)) in *.
    simpl. rewrite sameAs_refl by assumption. simpl. split.
    + rewrite hasPlace_numeric; [|assumption|].
      * now rewrite existsb_filter_negb.
      * apply Forall_filter_pure. now inversion Hfavs1.
    + intros _ Hlen. rewrite take_ge by lia.
      rewrite filter_negb_id by assumption. now destruct st.
Qed.

End Favorites.

(** C2 (as stated) fails. Toggling a place the list already holds removes
    it and then puts it back in front: [north; saoPaulo] becomes
    [saoPaulo; north]. Toggling a new place on a full list of 12 evicts the
    last entry, which the second toggle does not bring back. *)
Lemma toggleFavorite_twice_counterexample :
  let st := stateWith [VObj northOfEquator; VObj saoPaulo] in
  let full := stateWith (VObj ∘ placeAt <$> [1; 2; 3; 4; 5; 6; 7; 8; 9; 10; 11; 12]%positive) in
  ((st1 ← toggleFavorite (H := exampleHost) (VObj saoPaulo) st;
    toggleFavorite (H := exampleHost) (VObj saoPaulo) st1)
     = Ok (stateWith [VObj saoPaulo; VObj northOfEquator])
   /\ stateWith [VObj saoPaulo; VObj northOfEquator] <> st)
  /\ ((st1 ← toggleFavorite (H := exampleHost) (VObj (placeAt 13)) full;
       toggleFavorite (H := exampleHost) (VObj (placeAt 13)) st1)
        = Ok (stateWith (VObj ∘ placeAt <$> [1; 2; 3; 4; 5; 6; 7; 8; 9; 10; 11]%positive))
      /\ stateWith (VObj ∘ placeAt <$> [1; 2; 3; 4; 5; 6; 7; 8; 9; 10; 11]%positive) <> full).
Proof.
  cbv zeta. repeat split; try (vm_compute; reflexivity); discriminate.
Qed.

Lemma toggleFavorite_twice_witness :
  exists st1 st2,
    toggleFavorite (H := exampleHost) (VObj saoPaulo) (stateWith [VObj northOfEquator]) = Ok st1
    /\ toggleFavorite (H := exampleHost) (VObj saoPaulo) st1 = Ok st2
    /\ hasPlace (H := exampleHost) (VObj saoPaulo) (favorites st2)
       = hasPlace (H := exampleHost) (VObj saoPaulo) [VObj northOfEquator]
    /\ (hasPlace (H := exampleHost) (VObj saoPaulo) [VObj northOfEquator] = Ok false ->
        1 < 12 -> st2 = stateWith [VObj northOfEquator]).
Proof.
  apply (toggleFavorite_twice (H := exampleHost) (VObj saoPaulo)
           (stateWith [VObj northOfEquator])).
  - reflexivity.
  - repeat constructor.
Defined.

Lemma toggleFavorite_bounded_witness :
  exists st',
    toggleFavorite (H := exampleHost) (VObj (placeAt 13))
      (stateWith (VObj ∘ placeAt <$> [1; 2; 3; 4; 5; 6; 7; 8; 9; 10; 11; 12]%positive))
      = Ok st'
    /\ length (favorites st') <= 12.
Proof.
  destruct (toggleFavorite_bounded (H := exampleHost) (VObj (placeAt 13))
              (stateWith (VObj ∘ placeAt <$> [1; 2; 3; 4; 5; 6; 7; 8; 9; 10; 11; 12]%positive)))
    as (st' & Hst' & Hlen & _).
  - reflexivity.
  - repeat constructor.
  - simpl. lia.
  - exists st'. split; assumption.
Defined.

(** ** Series builder *)

Section Series.
Context `{Host}.

Lemma at_cons_S (x : prim) (arr : list prim) (i : nat) : at_ (x :: arr) (S i) = at_ arr i.
Proof. reflexivity. Qed.

Lemma scanStart_first (now : option Z) (rest : list prim) (k d i : nat) :
  i < length rest ->
  atOrAfter rest now i = true ->
  (forall j, j < i -> atOrAfter rest now j = false) ->
  scanStart now rest k d = k + i.
Proof.
  unfold atOrAfter. revert k i.
  induction rest as [|x rest IH]; intros k i Hi Hge Hbefore; simpl in Hi; [lia|].
  destruct i as [|i]; simpl.
  - change (at_ (x :: rest) 0) with x in Hge. rewrite Hge. lia.
  - pose proof (Hbefore 0 ltac:(lia)) as H0.
    change (at_ (x :: rest) 0) with x in H0. rewrite H0.
    rewrite (IH (S k) i); [lia | lia | exact Hge |].
    intros j Hj. apply (Hbefore (S j)). lia.
Qed.

Lemma scanStart_none (now : option Z) (rest : list prim) (k d : nat) :
  (forall j, j < length rest -> atOrAfter rest now j = false) ->
  scanStart now rest k d = d.
Proof.
  unfold atOrAfter. revert k.
  induction rest as [|x rest IH]; intros k Hnone; simpl; [reflexivity|].
  pose proof (Hnone 0 ltac:(simpl; lia)) as H0.
  change (at_ (x :: rest) 0) with x in H0. rewrite H0.
  apply IH. intros j Hj. apply (Hnone (S j)). simpl. lia.
Qed.

Lemma buildHourlySeries_window (data : option Json) (nowISO : prim)
    (hours : nat) (locale : string) :
  let startIdx := scanStart (referenceInstant nowISO) (hourlyTimes data) 0 0 in
  buildHourlySeries data nowISO hours locale =
    hourlyPoint data locale
      <$> seq startIdx (Nat.min (length (hourlyTimes data)) (startIdx + hours) - startIdx).
Proof. reflexivity. Qed.

(** C3: when the hourly time array has a first index [i] whose timestamp
    is at or after the reference instant, [buildHourlySeries] returns the
    points of the consecutive indices from [i] on, and their number is the
    smaller of the window size and the number of entries from [i] to the
    end of the array. *)
Theorem buildHourlySeries_from_first (data : option Json) (nowISO : prim)
    (hours : nat) (locale : string) (i : nat) :
  i < length (hourlyTimes data) ->
  atOrAfter (hourlyTimes data) (referenceInstant nowISO) i = true ->
  (forall j, j < i -> atOrAfter (hourlyTimes data) (referenceInstant nowISO) j = false) ->
  buildHourlySeries data nowISO hours locale =
    hourlyPoint data locale
      <$> seq i (Nat.min hours (length (hourlyTimes data) - i))
  /\ length (buildHourlySeries data nowISO hours locale) =
       Nat.min hours (length (hourlyTimes data) - i).
Proof.
  intros Hi Hge Hbefore.
  assert (Heq : buildHourlySeries data nowISO hours locale =
                hourlyPoint data locale
                  <$> seq i (Nat.min hours (length (hourlyTimes data) - i))).
  { rewrite buildHourlySeries_window. cbv zeta.
    rewrite (scanStart_first _ _ 0 0 i Hi Hge Hbefore). simpl.
    f_equal. f_equal. lia. }
  split; [exact Heq|].
  now rewrite Heq, length_fmap, length_seq.
Qed.

(** C6: when the hourly time array is not empty and the reference instant
    is strictly after every timestamp in it, [buildHourlySeries] starts at
    index 0 and returns the first min(window size, length) points, which
    is not the empty sequence for a positive window size. *)
Theorem buildHourlySeries_fallback (data : option Json) (nowISO : prim)
    (hours : nat) (locale : string) (now : Z) :
  hourlyTimes data <> [] ->
  referenceInstant nowISO = Some now ->
  (forall j, j < length (hourlyTimes data) ->
     exists t, DateTimeValue (at_ (hourlyTimes data) j) = Some t /\ (t < now)%Z) ->
  buildHourlySeries data nowISO hours locale =
    hourlyPoint data locale <$> seq 0 (Nat.min hours (length (hourlyTimes data)))
  /\ (0 < hours -> buildHourlySeries data nowISO hours locale <> []).
Proof.
  intros Hne Hnow Hall.
  assert (Heq : buildHourlySeries data nowISO hours locale =
                hourlyPoint data locale
                  <$> seq 0 (Nat.min hours (length (hourlyTimes data)))).
  { rewrite buildHourlySeries_window. cbv zeta.
    rewrite scanStart_none.
    - simpl. f_equal. f_equal. lia.
    - intros j Hj. destruct (Hall j Hj) as (t & Ht & Hlt).
      unfold atOrAfter. rewrite Ht, Hnow. simpl. apply Z.leb_gt. exact Hlt. }
  split; [exact Heq|].
  intros Hh Hnil. rewrite Heq in Hnil.
  apply (f_equal length) in Hnil. rewrite length_fmap, length_seq in Hnil.
  destruct (hourlyTimes data); [congruence|]. simpl in Hnil. lia.
Qed.

Lemma scanStart_spec (now : option Z) (rest : list prim) (k d : nat) :
  scanStart now rest k d = d
  \/ exists i, i < length rest /\ scanStart now rest k d = k + i
               /\ atOrAfter rest now i = true.
Proof.
  revert k. induction rest as [|x rest IH]; intros k; simpl; [now left|].
  destruct (timeGe (DateTimeValue x) now) eqn:Hx.
  - right. exists 0. split; [lia|]. split; [lia|]. exact Hx.
  - destruct (IH (S k)) as [Hd|(i & Hi & Hs & Hge)]; [now left|].
    right. exists (S i). split; [lia|]. split; [lia|]. exact Hge.
Qed.






End Series.

Lemma buildHourlySeries_from_first_witness :
  buildHourlySeries (H := exampleHost) sixHours (ms 2500) 2 "pt-BR" =
    hourlyPoint (H := exampleHost) sixHours "pt-BR" <$> [2; 3]
  /\ length (buildHourlySeries (H := exampleHost) sixHours (ms 2500) 2 "pt-BR") = 2.
Proof.
  apply (buildHourlySeries_from_first (H := exampleHost) sixHours (ms 2500) 2 "pt-BR" 2).
  - simpl. lia.
  - reflexivity.
  - intros [|[|j]] Hj; [reflexivity | reflexivity | lia].
Defined.

Lemma buildHourlySeries_fallback_witness :
  buildHourlySeries (H := exampleHost) sixHours (ms 7000) 4 "pt-BR" =
    hourlyPoint (H := exampleHost) sixHours "pt-BR" <$> [0; 1; 2; 3]
  /\ (0 < 4 -> buildHourlySeries (H := exampleHost) sixHours (ms 7000) 4 "pt-BR" <> []).
Proof.
  apply (buildHourlySeries_fallback (H := exampleHost) sixHours (ms 7000) 4 "pt-BR" 7000).
  - discriminate.
  - reflexivity.
  - intros [|[|[|[|[|[|j]]]]]] Hj; simpl in Hj; try lia;
      eexists; (split; [reflexivity|reflexivity]).
Defined.



(** ** Place resolver and forecast fetcher *)

Section Resolver.
Context `{Host} `{Network}.

(** C4 (as amended): [geocode] does not catch. When the request fails it
    rejects with the same error, on a non-2xx response it rejects with
    Error "HTTP <status>", and on success it returns the normalized results
    (none when the body has no results). It is the caller, the callback of
    the debounced search, that turns a rejection into an empty list of
    suggestions. *)
Theorem geocode_outcomes (query : string) (count : prim) (language : string) :
  (forall e, fetch (geocodeUrl query count language) = Throw e ->
     geocode query count language = Throw e)
  /\ (forall res, fetch (geocodeUrl query count language) = Ok res ->
        ok res = false ->
        geocode query count language
          = Throw (Error ("HTTP " ++ decimalDigits (status res))))
  /\ (forall res data, fetch (geocodeUrl query count language) = Ok res ->
        ok res = true -> json res = Ok data ->
        geocode query count language
          = Ok (normalizePlace <$> default [] (data ≫= results)))
  /\ (forall e st, geocode query six "pt" = Throw e ->
        suggestions (searchCallback query true st) = []
        /\ isSearching (searchCallback query true st) = false
        /\ searchCallback query false st = st).
Proof.
  unfold geocode, fetchJson. split; [|split; [|split]].
  - intros e ->. reflexivity.
  - intros res -> Hok. simpl. now rewrite Hok.
  - intros res data -> Hok Hjson. simpl. rewrite Hok, Hjson. reflexivity.
  - intros e st He. unfold searchCallback. fold six.
    unfold geocode, fetchJson in *. rewrite He. simpl.
    repeat split.
Qed.

(** C7: for every body the reverse-geocoding request returns,
    [reverseGeocodeOSM] returns one place that carries the given latitude
    and longitude, the id "osm:<lat>,<lon>" and the timezone "auto"; its
    name is "Minha localização" when city, town, village and county are
    absent, its admin region and its country are the empty string when
    state and country are absent. *)
Theorem reverseGeocodeOSM_defaults (lat lon : prim) (language : string)
    (data : option Json) :
  fetchJson (reverseUrl lat lon language) = Ok data ->
  exists o : Place,
    reverseGeocodeOSM lat lon language = Ok [VObj o]
    /\ latitude o = lat /\ longitude o = lon
    /\ id o = PStr ("osm:" ++ ToString lat ++ "," ++ ToString lon)
    /\ timezone o = PStr "auto"
    /\ (let a := default emptyAddress (data ≫= address) in
        (city a = PUndefined -> town a = PUndefined ->
         village a = PUndefined -> county a = PUndefined ->
         name o = PStr "Minha localização")
        /\ (state a = PUndefined -> admin1 o = PStr "")
        /\ (addr_country a = PUndefined -> country o = PStr "")).
Proof.
  intros Hdata. unfold reverseGeocodeOSM. rewrite Hdata. simpl.
  eexists. split; [reflexivity|]. simpl.
  repeat split.
  - intros -> -> -> ->. reflexivity.
  - intros ->. reflexivity.
  - intros ->. reflexivity.
Qed.

(** C8: for every place, [fetchForecast] requests the URL built from
    parameters in which the temperature and wind-speed units are fahrenheit
    and mph for the imperial unit and celsius and kmh otherwise,
    forecast_days is 7, latitude and longitude are those of the place, and
    the timezone is the place's, or "auto" when the place has none. *)
Theorem fetchForecast_params (o : Place) (unit : prim) :
  exists params,
    forecastParams (VObj o) unit = Ok params
    /\ fetchForecast (VObj o) unit =
         fetchJson ("https://api.open-meteo.com/v1/forecast?"
                      ++ URLSearchParamsToString params)
    /\ paramGet "temperature_unit" params =
         Some (if primEqStr unit "imperial" then "fahrenheit" else "celsius")
    /\ paramGet "wind_speed_unit" params =
         Some (if primEqStr unit "imperial" then "mph" else "kmh")
    /\ paramGet "forecast_days" params = Some "7"
    /\ paramGet "latitude" params = Some (ToString (latitude o))
    /\ paramGet "longitude" params = Some (ToString (longitude o))
    /\ (truthyPrim (timezone o) = true ->
        paramGet "timezone" params = Some (ToString (timezone o)))
    /\ (truthyPrim (timezone o) = false ->
        paramGet "timezone" params = Some "auto").
Proof.
  eexists. split; [reflexivity|]. split; [reflexivity|].
  assert (Hunit : primEqStr
                    match unit with PUndefined => PStr "metric" | _ => unit end
                    "imperial" = primEqStr unit "imperial")
    by (destruct unit; reflexivity).
  unfold paramGet, orElse. simpl. rewrite Hunit.
  repeat split; intros ->; reflexivity.
Qed.

End Resolver.

(** C4 (as stated) fails: on a response with status 500 [geocode] rejects
    with Error "HTTP 500", and with the network down it rejects with the
    error of the request; in neither case does it return the empty
    sequence. *)
Lemma geocode_rejects_counterexample :
  geocode (H := exampleHost) (H0 := respond serverError) "Recife" six "pt"
    = Throw (Error "HTTP 500")
  /\ geocode (H := exampleHost) (H0 := offline) "Recife" six "pt" = Throw TypeError
  /\ geocode (H := exampleHost) (H0 := respond serverError) "Recife" six "pt" <> Ok []
  /\ geocode (H := exampleHost) (H0 := offline) "Recife" six "pt" <> Ok [].
Proof. repeat split; vm_compute; congruence. Qed.

Lemma geocode_outcomes_witness :
  geocode (H := exampleHost) (H0 := respond serverError) "Recife" six "pt"
    = Throw (Error ("HTTP " ++ decimalDigits 500)).
Proof.
  exact (proj1 (proj2 (geocode_outcomes (H := exampleHost) (H0 := respond serverError)
                         "Recife" six "pt"))
           serverError eq_refl eq_refl).
Defined.

Lemma reverseGeocodeOSM_defaults_witness :
  exists o : Place,
    reverseGeocodeOSM (H := exampleHost) (H0 := respond countryOnly)
      (ms 10) (ms 20) "pt-BR" = Ok [VObj o]
    /\ name o = PStr "Minha localização" /\ admin1 o = PStr ""
    /\ country o = PStr "Brasil".
Proof.
  destruct (reverseGeocodeOSM_defaults (H := exampleHost) (H0 := respond countryOnly)
              (ms 10) (ms 20) "pt-BR" _ eq_refl)
    as (o & Ho & _ & _ & _ & _ & Hname & Hadmin & _).
  exists o. split; [exact Ho|]. split; [now apply Hname|]. split; [now apply Hadmin|].
  simpl in Ho. injection Ho as <-. reflexivity.
Defined.

Lemma fetchForecast_params_witness :
  exists params,
    forecastParams (H := exampleHost) (VObj southOfEquator) (PStr "imperial") = Ok params
    /\ paramGet "temperature_unit" params = Some "fahrenheit"
    /\ paramGet "wind_speed_unit" params = Some "mph"
    /\ paramGet "timezone" params = Some "auto".
Proof.
  destruct (fetchForecast_params (H := exampleHost) (H0 := offline)
              southOfEquator (PStr "imperial"))
    as (params & Hp & _ & Ht & Hw & _ & _ & _ & Htz & _).
  exists params. split; [exact Hp|]. split; [exact Ht|]. split; [exact Hw|].
  now apply Htz.
Defined.

(** * Further properties *)

(** ** Place equality is an equivalence *)

Section PlaceEquivalence.
Context `{Host}.

Lemma coordKey_throws (a : value) (e : exn) : coordKey a = Throw e -> e = TypeError.
Proof.
  unfold coordKey, getField, callToFixed.
  destruct a as [[| | | |]|o]; simpl; try congruence.
  destruct (latitude o); simpl; try congruence.
  destruct (longitude o); simpl; congruence.
Qed.

Lemma isSamePlace_true_inv (a b : value) :
  isSamePlace a b = Ok true ->
  truthy a = true /\ truthy b = true
  /\ exists k, coordKey a = Ok k /\ coordKey b = Ok k.
Proof.
  unfold isSamePlace.
  destruct (truthy a), (truthy b); simpl; try discriminate.
  destruct (coordKey a) as [ka|]; simpl; try discriminate.
  destruct (coordKey b) as [kb|]; simpl; try discriminate.
  intros [= Heq]. apply String.eqb_eq in Heq as ->. eauto.
Qed.

Lemma isSamePlace_of_keys (a b : value) (k : string) :
  truthy a = true -> truthy b = true ->
  coordKey a = Ok k -> coordKey b = Ok k -> isSamePlace a b = Ok true.
Proof.
  intros Ta Tb Ka Kb. unfold isSamePlace. rewrite Ta, Tb, Ka, Kb. simpl.
  now rewrite String.eqb_refl.
Qed.

Lemma isSamePlace_comm (a b : value) : isSamePlace a b = isSamePlace b a.
Proof.
  unfold isSamePlace.
  destruct (truthy a), (truthy b); simpl; try reflexivity.
  destruct (coordKey a) as [ka|ea] eqn:Ka, (coordKey b) as [kb|eb] eqn:Kb; simpl.
  - now rewrite String.eqb_sym.
  - reflexivity.
  - reflexivity.
  - now rewrite (coordKey_throws _ _ Ka), (coordKey_throws _ _ Kb).
Qed.

Lemma isSamePlace_chain (a b c : value) :
  isSamePlace a b = Ok true -> isSamePlace b c = Ok true ->
  isSamePlace a c = Ok true.
Proof.
  intros Hab Hbc.
  apply isSamePlace_true_inv in Hab as (Ta & _ & k & Ka & Kb).
  apply isSamePlace_true_inv in Hbc as (_ & Tc & k' & Kb' & Kc).
  rewrite Kb in Kb'. injection Kb' as <-.
  eauto using isSamePlace_of_keys.
Qed.

(** X1: [isSamePlace] is symmetric on all values: both orders return the
    same boolean, or both throw the same error. *)
Theorem isSamePlace_symmetric (a b : value) : isSamePlace a b = isSamePlace b a.
Proof. apply isSamePlace_comm. Qed.

(** X2: [isSamePlace] is reflexive on every object with numeric
    coordinates and transitive on all values, so together with symmetry
    it is an equivalence on place records. *)
Theorem isSamePlace_reflexive_transitive (a b c : value) :
  (numericPlace a = true -> isSamePlace a a = Ok true)
  /\ (isSamePlace a b = Ok true -> isSamePlace b c = Ok true ->
      isSamePlace a c = Ok true).
Proof.
  split.
  - intros Ha. rewrite isSamePlace_numeric by assumption.
    now rewrite sameAs_refl.
  - apply isSamePlace_chain.
Qed.

End PlaceEquivalence.

Lemma isSamePlace_reflexive_transitive_witness :
  isSamePlace (H := exampleHost) (VObj saoPaulo) (VObj saoPaulo) = Ok true.
Proof.
  exact (proj1 (isSamePlace_reflexive_transitive (H := exampleHost)
                  (VObj saoPaulo) (VObj saoPaulo) (VObj saoPaulo)) eq_refl).
Defined.

(** ** Normalized places *)

Section Normalize.
Context `{Host}.

Lemma nullish_not_nullish (a b : prim) :
  b <> PUndefined -> b <> PNull ->
  nullish a b <> PUndefined /\ nullish a b <> PNull.
Proof. destruct a; simpl; auto; split; discriminate. Qed.

Lemma nullish_fixed (a b c : prim) :
  b <> PUndefined -> b <> PNull -> nullish (nullish a b) c = nullish a b.
Proof. destruct a; simpl; auto; destruct b; simpl; congruence. Qed.

Lemma normalizePlace_twice (p : value) :
  normalizePlace (normalizePlace p) = normalizePlace p.
Proof.
  unfold normalizePlace. destruct (truthy p); simpl; [|reflexivity].
  now rewrite nullish_fixed by discriminate.
Qed.

Lemma normalizePlace_has_id (p : value) (o : Place) :
  normalizePlace p = VObj o -> id o <> PUndefined /\ id o <> PNull.
Proof.
  unfold normalizePlace. destruct (truthy p); [|discriminate].
  intros [= <-]. simpl. apply nullish_not_nullish; discriminate.
Qed.

(** X3: [normalizePlace] is idempotent: normalizing a normalized result
    changes nothing, also for a missing result (null) and for a result
    whose id had to be synthesized from the coordinates. *)
Theorem normalizePlace_idempotent (p : value) :
  normalizePlace (normalizePlace p) = normalizePlace p.
Proof. apply normalizePlace_twice. Qed.

(** X4: [normalizePlace] is invisible to [isSamePlace]: comparing the
    normalized record gives the same outcome as comparing the raw result,
    and the record it builds always has an id (never null or undefined). *)
Theorem normalizePlace_same_place (p q : value) :
  isSamePlace (normalizePlace p) q = isSamePlace p q
  /\ (forall o, normalizePlace p = VObj o -> id o <> PUndefined /\ id o <> PNull).
Proof.
  split; [|apply normalizePlace_has_id].
  unfold normalizePlace, isSamePlace.
  destruct (truthy p) eqn:Tp; simpl; [|reflexivity].
  destruct (truthy q); simpl; [|reflexivity].
  destruct p as [[| | | |]|o]; simpl in *; try discriminate; reflexivity.
Qed.

End Normalize.

(** ** The favorites list as a set of places *)

Section FavoritesSet.
Context `{Host}.

Lemma sameAs_true (p f : value) : sameAs p f = true <-> isSamePlace f p = Ok true.
Proof.
  unfold sameAs. destruct (isSamePlace f p) as [[|]|]; split; congruence.
Qed.

Lemma sameAs_comm (p q : value) : sameAs p q = sameAs q p.
Proof. unfold sameAs. now rewrite isSamePlace_comm. Qed.

Lemma sameAs_chain (p q r : value) :
  sameAs p q = true -> sameAs q r = true -> sameAs p r = true.
Proof.
  rewrite !sameAs_true. intros Hqp Hrq. eauto using isSamePlace_chain.
Qed.

Lemma existsb_take_false {A} (g : A -> bool) (n : nat) (l : list A) :
  existsb g l = false -> existsb g (take n l) = false.
Proof.
  revert n. induction l as [|x l IH]; intros [|n]; simpl; auto.
  intros Hx. apply orb_false_iff in Hx as [-> Hx]. simpl. auto.
Qed.

Lemma existsb_filter_false {A} (g h : A -> bool) (l : list A) :
  existsb g l = false -> existsb g (List.filter h l) = false.
Proof.
  induction l as [|x l IH]; simpl; auto.
  intros Hx. apply orb_false_iff in Hx as [Hgx Hx].
  destruct (h x); simpl; [rewrite Hgx|]; auto.
Qed.

Lemma distinctPlaces_take (n : nat) (favs : list value) :
  distinctPlaces favs = true -> distinctPlaces (take n favs) = true.
Proof.
  revert n. induction favs as [|f favs IH]; intros [|n]; simpl; auto.
  intros Hd. apply andb_true_iff in Hd as [Hf Hd].
  apply negb_true_iff in Hf.
  rewrite existsb_take_false by assumption. simpl. auto.
Qed.

Lemma distinctPlaces_filter (h : value -> bool) (favs : list value) :
  distinctPlaces favs = true -> distinctPlaces (List.filter h favs) = true.
Proof.
  induction favs as [|f favs IH]; simpl; auto.
  intros Hd. apply andb_true_iff in Hd as [Hf Hd].
  apply negb_true_iff in Hf.
  destruct (h f); simpl; auto.
  rewrite existsb_filter_false by assumption. simpl. auto.
Qed.

(** Removing the entries equal to [p] does not change whether the list
    holds a place [q] that differs from [p]. *)
Lemma existsb_filter_other (p q : value) (favs : list value) :
  sameAs p q = false ->
  existsb (sameAs q) (List.filter (fun f => negb (sameAs p f)) favs)
    = existsb (sameAs q) favs.
Proof.
  intros Hpq. induction favs as [|f favs IH]; simpl; [reflexivity|].
  destruct (sameAs p f) eqn:Hpf; simpl.
  - destruct (sameAs q f) eqn:Hqf; simpl; [|exact IH].
    exfalso. rewrite sameAs_comm in Hqf.
    pose proof (sameAs_chain _ _ _ Hpf Hqf) as Hpq'. congruence.
  - now rewrite IH.
Qed.

(** X5: toggling a place on a list of place records flips whether the
    list holds it: a favorite stops being one, any other place becomes
    one. *)
Theorem toggleFavorite_flips (p : value) (st : AppState) :
  numericPlace p = true ->
  Forall (fun f => numericPlace f = true) (favorites st) ->
  exists st' b,
    toggleFavorite p st = Ok st'
    /\ hasPlace p (favorites st) = Ok b
    /\ hasPlace p (favorites st') = Ok (negb b).
Proof.
  intros Hp Hfavs.
  rewrite toggleFavorite_numeric by assumption. unfold setFavorites.
  rewrite toggleUpdater_numeric by assumption. simpl.
  eexists. exists (existsb (sameAs p) (favorites st)).
  split; [reflexivity|]. split; [now apply hasPlace_numeric|]. simpl.
  destruct (existsb (sameAs p) (favorites st)) eqn:Hex.
  - rewrite hasPlace_numeric; [|assumption|now apply Forall_filter_pure].
    now rewrite existsb_filter_negb.
  - change (take 12 (p :: favorites st)) with (p :: take 11 (favorites st)).
    rewrite hasPlace_numeric;
      [|assumption|constructor; [assumption|now apply Forall_take]].
    simpl. now rewrite sameAs_refl.
Qed.

(** X6: toggling keeps the list free of duplicates: when no two entries
    of a list of place records are equal places, the same holds after a
    place is toggled. *)
Theorem toggleFavorite_distinct (p : value) (st : AppState) :
  numericPlace p = true ->
  Forall (fun f => numericPlace f = true) (favorites st) ->
  distinctPlaces (favorites st) = true ->
  exists st',
    toggleFavorite p st = Ok st' /\ distinctPlaces (favorites st') = true.
Proof.
  intros Hp Hfavs Hd.
  rewrite toggleFavorite_numeric by assumption. unfold setFavorites.
  rewrite toggleUpdater_numeric by assumption. simpl.
  eexists. split; [reflexivity|]. simpl.
  destruct (existsb (sameAs p) (favorites st)) eqn:Hex.
  - now apply distinctPlaces_filter.
  - apply (distinctPlaces_take 12 (p :: favorites st)). simpl. now rewrite Hex, Hd.
Qed.

(** X7: toggling a place leaves every other place where it was, unless an
    entry is evicted: when the toggled place is removed, or added to a
    list of fewer than 12 entries, a place that differs from it is in the
    new list exactly when it was in the old one. *)
Theorem toggleFavorite_others (p q : value) (st : AppState) :
  numericPlace p = true -> numericPlace q = true ->
  Forall (fun f => numericPlace f = true) (favorites st) ->
  isSamePlace q p = Ok false ->
  hasPlace p (favorites st) = Ok true \/ length (favorites st) < 12 ->
  exists st',
    toggleFavorite p st = Ok st'
    /\ hasPlace q (favorites st') = hasPlace q (favorites st).
Proof.
  intros Hp Hq Hfavs Hqp Hcase.
  assert (Hpq : sameAs p q = false) by (unfold sameAs; now rewrite Hqp).
  rewrite toggleFavorite_numeric by assumption. unfold setFavorites.
  rewrite toggleUpdater_numeric by assumption. simpl.
  eexists. split; [reflexivity|]. simpl.
  rewrite (hasPlace_numeric q (favorites st)) by assumption.
  rewrite (hasPlace_numeric p (favorites st)) in Hcase by assumption.
  destruct (existsb (sameAs p) (favorites st)) eqn:Hex.
  - rewrite hasPlace_numeric; [|assumption|now apply Forall_filter_pure].
    now rewrite existsb_filter_other.
  - destruct Hcase as [Hin|Hlen]; [discriminate|].
    rewrite take_ge by (simpl; lia).
    rewrite hasPlace_numeric; [|assumption|now constructor].
    simpl. now rewrite sameAs_comm, Hpq.
Qed.

End FavoritesSet.

Lemma toggleFavorite_flips_witness :
  exists st' b,
    toggleFavorite (H := exampleHost) (VObj saoPaulo)
      (stateWith [VObj northOfEquator; VObj saoPaulo]) = Ok st'
    /\ hasPlace (H := exampleHost) (VObj saoPaulo)
         [VObj northOfEquator; VObj saoPaulo] = Ok b
    /\ hasPlace (H := exampleHost) (VObj saoPaulo) (favorites st') = Ok (negb b).
Proof.
  apply (toggleFavorite_flips (H := exampleHost) (VObj saoPaulo)
           (stateWith [VObj northOfEquator; VObj saoPaulo])).
  - reflexivity.
  - repeat constructor.
Defined.

Lemma toggleFavorite_distinct_witness :
  exists st',
    toggleFavorite (H := exampleHost) (VObj southOfEquator)
      (stateWith [VObj northOfEquator; VObj saoPaulo]) = Ok st'
    /\ distinctPlaces (H := exampleHost) (favorites st') = true.
Proof.
  apply (toggleFavorite_distinct (H := exampleHost) (VObj southOfEquator)
           (stateWith [VObj northOfEquator; VObj saoPaulo])).
  - reflexivity.
  - repeat constructor.
  - reflexivity.
Defined.

Lemma toggleFavorite_others_witness :
  exists st',
    toggleFavorite (H := exampleHost) (VObj saoPaulo)
      (stateWith [VObj northOfEquator; VObj saoPaulo]) = Ok st'
    /\ hasPlace (H := exampleHost) (VObj northOfEquator) (favorites st')
       = hasPlace (H := exampleHost) (VObj northOfEquator)
           [VObj northOfEquator; VObj saoPaulo].
Proof.
  apply (toggleFavorite_others (H := exampleHost) (VObj saoPaulo)
           (VObj northOfEquator) (stateWith [VObj northOfEquator; VObj saoPaulo])).
  - reflexivity.
  - reflexivity.
  - repeat constructor.
  - reflexivity.
  - left. reflexivity.
Defined.

(** ** Weather codes *)

Lemma eqb_iff_agree (s1 t1 s2 t2 : string) :
  (s1 =? t1) = (s2 =? t2) -> (s1 = t1 <-> s2 = t2).
Proof. rewrite <- !String.eqb_eq. intros ->. reflexivity. Qed.

(** X8: the emoji table and the label table know the same weather codes:
    for every numeric code, [wxEmoji] falls back to the thermometer
    exactly when [wxLabelPT] falls back to "Condição variável"; a missing
    code gets the question mark and the dash. *)
Theorem wx_known_codes_agree (code : number) (isDay : bool) :
  (wxEmoji (Some code) isDay = "🌡️" <-> wxLabelPT (Some code) = "Condição variável")
  /\ wxEmoji None isDay = "❔" /\ wxLabelPT None = "–".
Proof.
  split; [|split; reflexivity].
  apply eqb_iff_agree.
  unfold wxEmoji, wxLabelPT, wxLabelLookup, includes, strictEq.
  destruct (asInteger code) as [[|p|p]|]; [| | |destruct isDay; vm_compute; reflexivity].
  - destruct isDay; vm_compute; reflexivity.
  - do 7 (try destruct p as [p|p|]); destruct isDay; vm_compute; reflexivity.
  - destruct isDay; vm_compute; reflexivity.
Qed.

(** ** What the resolver returns *)

Section ResolverResults.
Context `{Host} `{Network}.

(** X9: every entry [geocode] returns is in normal form: normalizing it
    again changes nothing, and it is either null (for a missing result) or
    a record with an id. *)
Theorem geocode_results_normalized (query : string) (count : prim)
    (language : string) (places : list value) :
  geocode query count language = Ok places ->
  Forall (fun v => normalizePlace v = v
                   /\ (v = VPrim PNull
                       \/ exists o, v = VObj o /\ id o <> PUndefined /\ id o <> PNull))
    places.
Proof.
  unfold geocode. destruct (fetchJson _) as [data|e]; simpl; [|discriminate].
  intros [= <-]. apply Forall_fmap, Forall_true. intros raw. simpl. split.
  - apply normalizePlace_twice.
  - destruct (normalizePlace raw) as [v|o] eqn:Hn.
    + left. unfold normalizePlace in Hn. destruct (truthy raw); simpl in Hn; congruence.
    + right. exists o. split; [reflexivity|]. eapply normalizePlace_has_id; eauto.
Qed.

(** X10: the place resolved for coordinates about which the reverse
    geocoder names nothing is labelled "Minha localização", with no
    separator around the missing region and country. *)
Theorem placeLabel_unnamed_location (lat lon : prim) (language : string)
    (data : option Json) :
  fetchJson (reverseUrl lat lon language) = Ok data ->
  (let a := default emptyAddress (data ≫= address) in
   truthyPrim (city a) = false /\ truthyPrim (town a) = false
   /\ truthyPrim (village a) = false /\ truthyPrim (county a) = false
   /\ truthyPrim (state a) = false /\ truthyPrim (addr_country a) = false) ->
  exists o : Place,
    reverseGeocodeOSM lat lon language = Ok [VObj o]
    /\ placeLabel (VObj o) = "Minha localização".
Proof.
  intros Hdata (Hc & Ht & Hv & Hy & Hs & Hn).
  unfold reverseGeocodeOSM. rewrite Hdata. simpl.
  eexists. split; [reflexivity|].
  unfold placeLabel, orElse. simpl. rewrite Hc, Ht, Hv, Hy, Hs, Hn. reflexivity.
Qed.

End ResolverResults.

Lemma geocode_results_normalized_witness :
  Forall (fun v => normalizePlace (H := exampleHost) v = v
                   /\ (v = VPrim PNull
                       \/ exists o, v = VObj o /\ id o <> PUndefined /\ id o <> PNull))
    [VObj saoPaulo; VPrim PNull].
Proof.
  apply (geocode_results_normalized (H := exampleHost)
           (H0 := respond {| ok := true; status := 200;
                             json := Ok (Some {| results := Some [VObj saoPaulo; VPrim PNull];
                                                 address := None; hourly := None;
                                                 daily := None |}) |})
           "Recife" six "pt").
  reflexivity.
Defined.

Lemma placeLabel_unnamed_location_witness :
  exists o : Place,
    reverseGeocodeOSM (H := exampleHost)
      (H0 := respond {| ok := true; status := 200; json := Ok None |})
      (ms 10) (ms 20) "pt-BR" = Ok [VObj o]
    /\ placeLabel (H := exampleHost) (VObj o) = "Minha localização".
Proof.
  apply (placeLabel_unnamed_location (H := exampleHost)
           (H0 := respond {| ok := true; status := 200; json := Ok None |})
           (ms 10) (ms 20) "pt-BR" None).
  - reflexivity.
  - repeat split.
Defined.

(** ** The hourly window *)

Section Window.
Context `{Host}.

Lemma at_seq_slice (arr : list prim) (s n : nat) :
  s + n <= length arr -> at_ arr <$> seq s n = take n (drop s arr).
Proof.
  revert s. induction n as [|n IH]; intros s Hs; simpl.
  - now rewrite take_0.
  - destruct (lookup_lt_is_Some_2 arr s) as [x Hx]; [lia|].
    rewrite (drop_S _ _ _ Hx). simpl. unfold at_ at 1. rewrite Hx. simpl.
    f_equal. apply IH. lia.
Qed.

(** X11: whatever the snapshot, the timestamps of the hourly series are a
    contiguous slice of the time array of at most [hours] entries, which
    starts at index 0 or at an entry that is at or after the reference
    instant. *)
Theorem buildHourlySeries_slice (data : option Json) (nowISO : prim)
    (hours : nat) (locale : string) :
  exists start,
    start <= length (hourlyTimes data)
    /\ iso <$> buildHourlySeries data nowISO hours locale
       = take hours (drop start (hourlyTimes data))
    /\ (start = 0
        \/ atOrAfter (hourlyTimes data) (referenceInstant nowISO) start = true).
Proof.
  rewrite buildHourlySeries_window. cbv zeta.
  set (times := hourlyTimes data). set (now := referenceInstant nowISO).
  exists (scanStart now times 0 0).
  assert (Hstart : scanStart now times 0 0 <= length times
                   /\ (scanStart now times 0 0 = 0
                       \/ atOrAfter times now (scanStart now times 0 0) = true)).
  { destruct (scanStart_spec now times 0 0) as [->|(i & Hi & -> & Hge)].
    - split; [lia|now left].
    - split; [simpl; lia|now right]. }
  destruct Hstart as [Hle Hcase]. split; [exact Hle|]. split; [|exact Hcase].
  set (start := scanStart now times 0 0) in *.
  rewrite <- list_fmap_compose.
  change (iso ∘ hourlyPoint data locale) with (at_ times).
  rewrite at_seq_slice by lia.
  destruct (Nat.le_gt_cases hours (length times - start)) as [Hh|Hh].
  - f_equal. lia.
  - replace (Nat.min (length times) (start + hours) - start)
      with (length times - start) by lia.
    rewrite !take_ge; [reflexivity | |]; rewrite length_drop; lia.
Qed.

End Window.

(** ** Persistence *)

Section Persistence.
Context {J : Type} `{JsonCodec J}.

(** X12: what [saveLS] stores, [loadLS] reads back: a value that survives
    the JSON round trip is loaded again under its key, the items under
    other keys load as before, a second save under the same key replaces
    the first, and the three keys of the application are pairwise
    different. *)
Theorem saveLS_loadLS (key : string) (value fallback : J)
    (localStorage : gmap string string) :
  (JSONstringify value <> "" ->
   JSONparse (JSONstringify value) = Ok value ->
   loadLS key fallback (saveLS key value (Some localStorage)) = value)
  /\ (forall (other : string) (env : environment),
        other <> key ->
        loadLS other fallback (saveLS key value env) = loadLS other fallback env)
  /\ (forall (value' : J) (env : environment),
        saveLS key value (saveLS key value' env) = saveLS key value env)
  /\ (sk_favorites STORAGE_KEYS <> sk_lastPlace STORAGE_KEYS
      /\ sk_favorites STORAGE_KEYS <> sk_settings STORAGE_KEYS
      /\ sk_lastPlace STORAGE_KEYS <> sk_settings STORAGE_KEYS).
Proof.
  split; [|split; [|split]].
  - intros Hne Hrt. unfold loadLS, saveLS, safeJsonParse.
    rewrite lookup_insert_eq.
    destruct (String.eqb_spec (JSONstringify value) "") as [|_]; [contradiction|].
    now rewrite Hrt.
  - intros other [ls|] Hother; simpl; [|reflexivity].
    now rewrite lookup_insert_ne by congruence.
  - intros value' [ls|]; simpl; [|reflexivity].
    now rewrite insert_insert_eq.
  - repeat split; discriminate.
Qed.

End Persistence.

Lemma saveLS_loadLS_witness :
  loadLS (H := decimalCodec) "wx_settings_v1" 0%N
    (saveLS (H := decimalCodec) "wx_settings_v1" 42%N (Some ∅)) = 42%N.
Proof.
  apply (saveLS_loadLS (H := decimalCodec) "wx_settings_v1" 42%N 0%N ∅).
  - discriminate.
  - reflexivity.
Defined.

(** ** The debounced search *)

Section Search.
Context `{Host} `{Network}.

Lemma findRun_Some (r : nat) (entries : list (nat * string)) (q : string) :
  findRun r entries = Some q -> In (r, q) entries.
Proof.
  unfold findRun. destruct (List.find _ entries) as [[r' q']|] eqn:Hf; [|discriminate].
  intros [= <-]. apply find_some in Hf as [Hin Hr]. simpl in Hr.
  apply Nat.eqb_eq in Hr as ->. exact Hin.
Qed.

Lemma dropRun_all (r : nat) (entries : list (nat * string)) :
  Forall (fun t => fst t = r) entries -> dropRun r entries = [].
Proof.
  induction 1 as [|t entries Ht _ IH]; simpl; [reflexivity|].
  rewrite Ht, Nat.eqb_refl. exact IH.
Qed.

Lemma dropRun_other (r : nat) (entries : list (nat * string)) :
  Forall (fun t => fst t <> r) entries -> dropRun r entries = entries.
Proof.
  induction 1 as [|t entries Ht _ IH]; simpl; [reflexivity|].
  apply Nat.eqb_neq in Ht. rewrite Ht. simpl. now rewrite IH.
Qed.

Lemma aliveOf_cleared (s : SearchState) (r r' : nat) (u : AppState) (q : string)
    (c : option nat) (ts rs : list (nat * string)) :
  aliveOf {| ui := u; query := q; alive := <[r := false]> (alive s);
             cleanup := c; timers := ts; requests := rs |} r'
  = if Nat.eqb r r' then false else aliveOf s r'.
Proof.
  unfold aliveOf. simpl. destruct (Nat.eqb_spec r r') as [<-|Hne].
  - destruct (Nat.lt_ge_cases r (length (alive s))) as [Hlt|Hge].
    + now rewrite list_lookup_insert_eq.
    + now rewrite lookup_ge_None_2 by (rewrite length_insert; lia).
  - now rewrite list_lookup_insert_ne.
Qed.

Lemma aliveOf_extended (s : SearchState) (r' : nat) (u : AppState) (q : string)
    (c : option nat) (ts rs : list (nat * string)) :
  aliveOf {| ui := u; query := q; alive := (alive s ++ [true])%list;
             cleanup := c; timers := ts; requests := rs |} r'
  = if Nat.eqb r' (length (alive s)) then true else aliveOf s r'.
Proof.
  unfold aliveOf. simpl. destruct (Nat.eqb_spec r' (length (alive s))) as [->|Hne].
  - now rewrite list_lookup_middle.
  - destruct (Nat.lt_ge_cases r' (length (alive s))) as [Hlt|Hge].
    + now rewrite lookup_app_l.
    + rewrite !lookup_ge_None_2; [reflexivity | lia |].
      rewrite length_app. simpl. lia.
Qed.

Lemma existsb_Forall_false {A} (g : A -> bool) (l : list A) :
  Forall (fun t => g t = false) l -> existsb g l = false.
Proof. induction 1 as [|t l Hx _ IH]; simpl; [reflexivity|]. now rewrite Hx. Qed.

Lemma runCleanup_quiet (s : SearchState) :
  SearchInv s -> SearchQuiet (runCleanup s) /\ ui (runCleanup s) = ui s
                 /\ query (runCleanup s) = query s.
Proof.
  intros [It Ir Hnd Hfr _]. unfold runCleanup.
  rewrite fmap_app in Hnd. apply NoDup_app in Hnd as (_ & _ & Hnd).
  apply Forall_app in Hfr as [_ Hfr].
  destruct (cleanup s) as [r|] eqn:Hc.
  - split; [|split; reflexivity]. constructor; simpl.
    + reflexivity.
    + apply dropRun_all. eapply Forall_impl; [exact It|].
      simpl. intros t (Ht & _). congruence.
    + eapply Forall_impl; [exact Ir|]. simpl. intros t (Hlen & Hlive).
      split; [exact Hlen|]. rewrite aliveOf_cleared.
      destruct (Nat.eqb_spec r (fst t)) as [|Hne]; [reflexivity|].
      destruct (aliveOf s (fst t)); [|reflexivity].
      destruct (Hlive eq_refl) as [Hr _]. congruence.
    + exact Hnd.
    + eapply Forall_impl; [exact Hfr|]. simpl. intros t Ht.
      now rewrite length_insert.
  - split; [|split; reflexivity]. constructor.
    + exact Hc.
    + destruct (timers s) as [|t ts]; [reflexivity|].
      apply Forall_cons in It as [(Ht & _) _]. discriminate.
    + eapply Forall_impl; [exact Ir|]. simpl. intros t (Hlen & Hlive).
      split; [exact Hlen|]. destruct (aliveOf s (fst t)); [|reflexivity].
      destruct (Hlive eq_refl) as [Hr _]. discriminate.
    + exact Hnd.
    + exact Hfr.
Qed.

Lemma runEffect_inv (q : string) (s : SearchState) :
  SearchQuiet s -> SearchInv (runEffect q s).
Proof.
  intros [Hc Ht Hr Hnd Hfr]. unfold runEffect. rewrite Ht.
  assert (Hdead : forall u q' c ts rs,
            Forall (fun t =>
                      aliveOf {| ui := u; query := q'; alive := (alive s ++ [true])%list;
                                 cleanup := c; timers := ts; requests := rs |} (fst t)
                      = false) (requests s)).
  { intros. rewrite Forall_forall in Hr, Hfr |- *. intros t Hin.
    rewrite aliveOf_extended.
    destruct (Nat.eqb_spec (fst t) (length (alive s))) as [Heq|_].
    - pose proof (Hfr t Hin). lia.
    - now apply Hr. }
  assert (Hnone : forall u q' c ts rs,
            existsb (fun t =>
                       aliveOf {| ui := u; query := q'; alive := (alive s ++ [true])%list;
                                  cleanup := c; timers := ts; requests := rs |} (fst t))
              (requests s) = false).
  { intros. apply existsb_Forall_false, Hdead. }
  destruct (Nat.ltb_spec (utf16Length (trim q)) 2) as [Hshort|Hlong].
  - constructor; simpl.
    + constructor.
    + specialize (Hdead (setIsSearching false (setSuggestions [] (ui s))) q None [] (requests s)).
      rewrite Forall_forall in Hr, Hdead |- *. intros t Hin.
      split; [now apply Hr|]. intros Hlive. rewrite (Hdead t Hin) in Hlive. discriminate.
    + exact Hnd.
    + eapply Forall_impl; [exact Hfr|]. simpl. intros t Hlt.
      rewrite length_app. simpl. lia.
    + unfold livePending. simpl. now rewrite Hnone.
  - constructor; simpl.
    + constructor; [|constructor]. simpl. repeat split; try assumption.
      rewrite aliveOf_extended. now rewrite Nat.eqb_refl.
    + specialize (Hdead (setIsSearching true (ui s)) q (Some (length (alive s)))
                    [(length (alive s), q)] (requests s)).
      rewrite Forall_forall in Hr, Hdead |- *. intros t Hin.
      split; [now apply Hr|]. intros Hlive. rewrite (Hdead t Hin) in Hlive. discriminate.
    + constructor; [|exact Hnd].
      rewrite list_elem_of_In, in_map_iff. intros ([r' q'] & Hr' & Hin). simpl in Hr'.
      rewrite Forall_forall in Hfr. specialize (Hfr (r', q')).
      rewrite list_elem_of_In in Hfr. specialize (Hfr Hin). simpl in Hfr. lia.
    + constructor; simpl.
      * rewrite length_app. simpl. lia.
      * eapply Forall_impl; [exact Hfr|]. simpl. intros t Hlt.
        rewrite length_app. simpl. lia.
    + unfold livePending. simpl. rewrite aliveOf_extended.
      now rewrite Nat.eqb_refl.
Qed.

Lemma changeQuery_inv (q : string) (s : SearchState) :
  SearchInv s -> SearchInv (changeQuery q s).
Proof.
  intros Hs. unfold changeQuery. destruct (q =? query s); [exact Hs|].
  apply runEffect_inv. now apply runCleanup_quiet.
Qed.

Lemma withUi_inv (f : AppState -> AppState) (s : SearchState) :
  (forall st, isSearching (f st) = isSearching st) ->
  SearchInv s -> SearchInv (withUi f s).
Proof.
  intros Hf [It Ir Hnd Hfr Hsp]. constructor; try assumption.
  simpl. now rewrite Hf.
Qed.

Lemma timers_shape (s : SearchState) :
  SearchInv s ->
  timers s = [] \/ exists r, timers s = [(r, query s)] /\ cleanup s = Some r.
Proof.
  intros [It _ Hnd _ _].
  destruct (timers s) as [|[r1 q1] [|[r2 q2] ts]]; [now left| |].
  - right. exists r1. apply Forall_cons in It as [(Hc & Hq & _) _].
    simpl in *. now subst.
  - exfalso. apply Forall_cons in It as [(Hc1 & _) It].
    apply Forall_cons in It as [(Hc2 & _) _]. simpl in *.
    assert (r1 = r2) as -> by congruence.
    apply NoDup_cons in Hnd as [Hnot _]. apply Hnot. left.
Qed.

Lemma dropRun_fst_subset (r : nat) (entries : list (nat * string)) (x : nat) :
  x ∈ fst <$> dropRun r entries -> x ∈ fst <$> entries.
Proof.
  rewrite !list_elem_of_In, !in_map_iff.
  intros (t & Hx & Hin). exists t. split; [exact Hx|].
  unfold dropRun in Hin. now apply filter_In in Hin.
Qed.

Lemma NoDup_dropRun (r : nat) (front entries : list (nat * string)) :
  NoDup (fst <$> (front ++ entries)%list) ->
  NoDup (fst <$> (front ++ dropRun r entries)%list).
Proof.
  rewrite !fmap_app, !NoDup_app. intros (Hf & Hdis & He). split; [exact Hf|].
  split; [intros x Hx Hin; exact (Hdis x Hx (dropRun_fst_subset r entries x Hin))|].
  clear Hf Hdis. induction entries as [|t entries IH]; [constructor|].
  apply NoDup_cons in He as [Hnot He].
  change (dropRun r (t :: entries))
    with (if negb (Nat.eqb (fst t) r) then t :: dropRun r entries else dropRun r entries).
  destruct (Nat.eqb (fst t) r); simpl; [now apply IH|].
  apply NoDup_cons. split; [|now apply IH].
  intros Hin. apply Hnot. eapply dropRun_fst_subset. exact Hin.
Qed.

Lemma existsb_dropRun (g : nat * string -> bool) (r : nat)
    (entries : list (nat * string)) :
  (forall t, fst t = r -> g t = false) ->
  existsb g (dropRun r entries) = existsb g entries.
Proof.
  intros Hg. induction entries as [|t entries IH]; simpl; [reflexivity|].
  destruct (Nat.eqb_spec (fst t) r) as [Hr|_]; simpl.
  - now rewrite (Hg t Hr).
  - now rewrite IH.
Qed.

Lemma searchCallback_stale (q : string) (st : AppState) :
  searchCallback q false st = st.
Proof. unfold searchCallback. destruct (geocode _ _ _); reflexivity. Qed.

Lemma searchCallback_live (q : string) (st : AppState) :
  isSearching (searchCallback q true st) = false.
Proof. unfold searchCallback. destruct (geocode _ _ _); reflexivity. Qed.

Lemma timerFires_inv (r : nat) (s : SearchState) :
  SearchInv s -> SearchInv (searchStep s (TimerFires r)).
Proof.
  intros Hs. simpl. destruct (findRun r (timers s)) as [q|] eqn:Hfind; [|exact Hs].
  apply findRun_Some in Hfind.
  destruct (timers_shape s Hs) as [Hnil|(r0 & Hts & Hc)];
    [rewrite Hnil in Hfind; contradiction|].
  destruct Hs as [It Ir Hnd Hfr Hsp]. unfold livePending in Hsp.
  rewrite Hts in *. destruct Hfind as [[= <- <-]|[]].
  apply Forall_cons in It as [(_ & _ & Hlive & Hlen) _]. simpl in *.
  rewrite Nat.eqb_refl. simpl.
  apply NoDup_cons in Hnd as [Hnot Hnd].
  apply Forall_cons in Hfr as [Hr0 Hfr].
  constructor; simpl.
  - constructor.
  - apply Forall_app. split; [exact Ir|]. constructor; [|constructor].
    simpl. split; [exact Hlen|]. intros _. now split.
  - rewrite fmap_app. apply NoDup_app. split; [exact Hnd|]. split.
    + intros x Hx Hin. apply list_elem_of_singleton in Hin. now subst.
    + apply NoDup_singleton.
  - apply Forall_app. split; [exact Hfr|]. now constructor.
  - unfold livePending. simpl. rewrite Hsp, existsb_app. simpl.
    fold (aliveOf s r0). now rewrite orb_false_r, orb_comm.
Qed.

Lemma settles_inv (r : nat) (s : SearchState) :
  SearchInv s -> SearchInv (searchStep s (Settles r)).
Proof.
  intros Hs. simpl. destruct (findRun r (requests s)) as [q|] eqn:Hfind; [|exact Hs].
  apply findRun_Some in Hfind.
  pose proof (timers_shape s Hs) as Hshape.
  destruct Hs as [It Ir Hnd Hfr Hsp].
  assert (Hrq : 2 <= utf16Length (trim q)
                /\ (aliveOf s r = true -> cleanup s = Some r /\ q = query s)).
  { rewrite Forall_forall in Ir. apply (Ir (r, q)). now apply list_elem_of_In. }
  constructor; simpl.
  - exact It.
  - now apply Forall_filter_pure.
  - now apply NoDup_dropRun.
  - apply Forall_app in Hfr as [Hft Hfr]. apply Forall_app. split; [exact Hft|].
    now apply Forall_filter_pure.
  - unfold livePending in *. simpl. rewrite existsb_app in *.
    destruct (aliveOf s r) eqn:Hlive.
    + rewrite searchCallback_live. symmetry. apply orb_false_iff.
      destruct Hrq as [_ Hrq]. destruct (Hrq eq_refl) as [Hc _].
      split; apply existsb_Forall_false.
      * destruct Hshape as [->|(r0 & Hts & Hc0)]; [constructor|].
        exfalso. assert (r0 = r) as -> by congruence.
        rewrite Hts in Hnd. simpl in Hnd. apply NoDup_cons in Hnd as [Hnot _].
        apply Hnot. rewrite list_elem_of_In, in_map_iff. now exists (r, q).
      * apply Forall_forall. intros t Hin. apply list_elem_of_In in Hin.
        unfold dropRun in Hin. apply filter_In in Hin as [Hin Hne].
        apply negb_true_iff, Nat.eqb_neq in Hne.
        change (aliveOf s (fst t) = false).
        destruct (aliveOf s (fst t)) eqn:Ht; [|reflexivity].
        rewrite Forall_forall in Ir. apply list_elem_of_In in Hin.
        destruct (Ir t Hin) as [_ Hc']. destruct (Hc' Ht) as [Hc'' _]. congruence.
    + rewrite searchCallback_stale, Hsp. f_equal.
      symmetry. apply existsb_dropRun. intros t <-. exact Hlive.
Qed.

Lemma searchStep_inv (s : SearchState) (ev : SearchEvent) :
  SearchInv s -> SearchInv (searchStep s ev).
Proof.
  destruct ev as [q|p|r|r]; intros Hs.
  - now apply changeQuery_inv.
  - apply changeQuery_inv, withUi_inv; [reflexivity|exact Hs].
  - now apply timerFires_inv.
  - now apply settles_inv.
Qed.

Lemma searchRun_inv (favs : list value) (p : value) (events : list SearchEvent) :
  SearchInv (searchRun favs p events).
Proof.
  unfold searchRun.
  assert (Hm : SearchInv (mounted favs p)).
  { apply runEffect_inv. constructor; simpl; constructor. }
  revert Hm. generalize (mounted favs p).
  induction events as [|ev events IH]; intros s Hs; simpl; [exact Hs|].
  apply IH. now apply searchStep_inv.
Qed.

(** A letter with an accent is one code unit, though two bytes; a
    character outside the basic plane is two. *)
Lemma utf16Length_examples :
  utf16Length "é" = 1 /\ String.length "é" = 2
  /\ utf16Length "Recife" = 6 /\ utf16Length "😀" = 2.
Proof. repeat split. Qed.

(** X13: the search never asks the network about a short query: in every
    state the search can reach, each timeout that is set and each request
    in flight is for a query that has at least 2 UTF-16 code units after
    trimming, which is what [query.trim().length] counts. *)
Theorem search_never_requests_short (favs : list value) (p : value)
    (events : list SearchEvent) (r : nat) (q : string) :
  In (r, q) (timers (searchRun favs p events) ++ requests (searchRun favs p events))%list ->
  2 <= utf16Length (trim q).
Proof.
  destruct (searchRun_inv favs p events) as [It Ir _ _ _].
  rewrite Forall_forall in It, Ir. rewrite in_app_iff.
  intros [Hin|Hin]; apply list_elem_of_In in Hin.
  - now destruct (It _ Hin) as (_ & _ & _ & Hlen).
  - now destruct (Ir _ Hin) as (Hlen & _).
Qed.

(** X14: the search is debounced: in every state the search can reach at
    most one timeout is set, and it is the one of the last run of the
    effect, for the current query. *)
Theorem search_debounced (favs : list value) (p : value)
    (events : list SearchEvent) :
  let s := searchRun favs p events in
  length (timers s) <= 1
  /\ forall r q, In (r, q) (timers s) -> q = query s /\ cleanup s = Some r.
Proof.
  cbv zeta. destruct (timers_shape _ (searchRun_inv favs p events))
    as [->|(r0 & -> & Hc)]; simpl.
  - split; [lia|]. intros r q [].
  - split; [lia|]. intros r q [[= <- <-]|[]]. now split.
Qed.

(** X15: the results of a superseded search are dropped: in every state
    the search can reach, when the request of a query that is no longer
    the current one settles, the suggestions and the spinner stay as they
    are. *)
Theorem search_stale_results_dropped (favs : list value) (p : value)
    (events : list SearchEvent) (r : nat) (q : string) :
  let s := searchRun favs p events in
  In (r, q) (requests s) -> q <> query s ->
  ui (searchStep s (Settles r)) = ui s.
Proof.
  cbv zeta. intros Hin Hq.
  destruct (searchRun_inv favs p events) as [_ Ir Hnd _ _].
  set (s := searchRun favs p events) in *. simpl.
  destruct (findRun r (requests s)) as [q'|] eqn:Hfind; [|reflexivity]. simpl.
  assert (Hdead : aliveOf s r = false).
  { destruct (aliveOf s r) eqn:Hlive; [|reflexivity].
    rewrite Forall_forall in Ir. apply list_elem_of_In in Hin.
    destruct (Ir _ Hin) as [_ Hc]. destruct (Hc Hlive) as [_ Hq']. contradiction. }
  rewrite Hdead. apply searchCallback_stale.
Qed.

(** X16: the spinner follows the search: in every state the search can
    reach, [isSearching] is true exactly when a timeout is set or a request
    is in flight for the run of the effect that is still alive. *)
Theorem search_spinner (favs : list value) (p : value) (events : list SearchEvent) :
  isSearching (ui (searchRun favs p events)) = livePending (searchRun favs p events).
Proof. apply searchRun_inv. Qed.

End Search.

Lemma search_never_requests_short_witness :
  2 <= utf16Length (trim (Host := exampleHost) "Recife").
Proof.
  apply (search_never_requests_short (H := exampleHost) (H0 := offline)
           [] (VPrim PNull) [SetQuery "Recife"] 1 "Recife").
  left. reflexivity.
Defined.

Lemma search_debounced_witness :
  "Reci" = query (searchRun (H := exampleHost) (H0 := offline) [] (VPrim PNull)
                    [SetQuery "Rec"; SetQuery "Reci"])
  /\ cleanup (searchRun (H := exampleHost) (H0 := offline) [] (VPrim PNull)
                [SetQuery "Rec"; SetQuery "Reci"]) = Some 2.
Proof.
  apply (proj2 (search_debounced (H := exampleHost) (H0 := offline) [] (VPrim PNull)
                  [SetQuery "Rec"; SetQuery "Reci"])).
  left. reflexivity.
Defined.

Lemma search_stale_results_dropped_witness :
  ui (searchStep (H := exampleHost) (H0 := offline)
        (searchRun (H := exampleHost) (H0 := offline) [] (VPrim PNull)
           [SetQuery "Rec"; TimerFires 1; SetQuery "Reci"])
        (Settles 1))
  = ui (searchRun (H := exampleHost) (H0 := offline) [] (VPrim PNull)
          [SetQuery "Rec"; TimerFires 1; SetQuery "Reci"]).
Proof.
  apply (search_stale_results_dropped (H := exampleHost) (H0 := offline)
           [] (VPrim PNull) [SetQuery "Rec"; TimerFires 1; SetQuery "Reci"] 1 "Rec").
  - left. reflexivity.
  - discriminate.
Defined.

(** ** Loading the forecast and locating the user *)

Section Loading.
Context `{Host} `{Network} `{ErrorText}.



End Loading.



(** ** Formatting *)

Lemma append_not_dash (s suffix : string) :
  suffix = "°" \/ suffix = " mph" \/ suffix = " km/h" -> s ++ suffix <> "–".
Proof.
  intros Hsuffix Heq.
  assert (Hlen : String.length (s ++ suffix) = 3) by now rewrite Heq.
  rewrite length_append in Hlen.
  destruct Hsuffix as [Hs|[Hs|Hs]]; subst suffix; simpl in Hlen.
  - destruct s as [|c [|c' s]]; simpl in *; try lia; discriminate.
  - destruct s; simpl in *; lia.
  - destruct s; simpl in *; lia.
Qed.

Lemma mathRound_nearest (s : bool) (m : positive) (e : Z) :
  let z := (if s then - Z.pos m else Z.pos m)%Z in
  exists r : Z,
    mathRound (S754_finite s m e) = (if (r =? 0)%Z then S754_zero s else intNum r)
    /\ ((0 <= e)%Z -> r = (z * 2 ^ e)%Z)
    /\ ((e < 0)%Z ->
        (2 ^ (1 - e) * r <= 2 * z + 2 ^ (- e) < 2 ^ (1 - e) * (r + 1))%Z).
Proof.
  cbv zeta. unfold mathRound.
  set (z := (if s then - Z.pos m else Z.pos m)%Z).
  set (r := (if (0 <=? e)%Z then z * 2 ^ e
             else (2 * z + 2 ^ (- e)) / 2 ^ (1 - e))%Z).
  exists r. split; [destruct r; reflexivity|].
  subst r. destruct (Z.leb_spec 0 e) as [He|He]; split; intros He'; try lia.
  assert (Hpos : (0 < 2 ^ (1 - e))%Z) by (apply Z.pow_pos_nonneg; lia).
  pose proof (Z.div_mod (2 * z + 2 ^ (- e)) (2 ^ (1 - e)) ltac:(lia)) as Hdm.
  pose proof (Z.mod_pos_bound (2 * z + 2 ^ (- e)) (2 ^ (1 - e)) Hpos) as Hmod.
  lia.
Qed.

(** X19: a temperature or a wind speed is shown as a dash exactly when it
    is missing or NaN. Every other number is shown as its rounding,
    printed as a number, followed by its unit: "°" for a temperature,
    " mph" for a speed when the unit is "imperial" and " km/h" otherwise.
    The rounding of a finite number is the integer nearest to it, the
    larger one of two, and a zero with the sign of the number. *)
Theorem format_dash `{Host} (t v : option number) (unit : prim) :
  (formatTemp t = "–" <-> t = None \/ t = Some NaN)
  /\ (formatSpeed v unit = "–" <-> v = None \/ v = Some NaN)
  /\ (forall x, t = Some x -> isNaN x = false ->
        formatTemp t = NumberToString (mathRound x) ++ "°")
  /\ (forall x, v = Some x -> isNaN x = false ->
        (unit = PStr "imperial"
         -> formatSpeed v unit = NumberToString (mathRound x) ++ " mph")
        /\ (unit <> PStr "imperial"
            -> formatSpeed v unit = NumberToString (mathRound x) ++ " km/h"))
  /\ (forall x, match x with S754_finite _ _ _ => False | _ => mathRound x = x end
                \/ exists s m e,
                     x = S754_finite s m e
                     /\ let z := (if s then - Z.pos m else Z.pos m)%Z in
                        exists r : Z,
                          mathRound x = (if (r =? 0)%Z then S754_zero s else intNum r)
                          /\ ((0 <= e)%Z -> r = (z * 2 ^ e)%Z)
                          /\ ((e < 0)%Z ->
                              (2 ^ (1 - e) * r <= 2 * z + 2 ^ (- e)
                               < 2 ^ (1 - e) * (r + 1))%Z)).
Proof.
  split; [|split; [|split; [|split]]].
  - unfold formatTemp. destruct t as [x|]; [destruct x as [s|s| |s m e]|]; simpl;
      split; auto; try (intros [|]; discriminate);
      intros Heq; exfalso; revert Heq; apply append_not_dash; auto.
  - unfold formatSpeed. destruct v as [x|]; [destruct x as [s|s| |s m e]|]; simpl;
      split; auto; try (intros [|]; discriminate);
      destruct (primEqStr unit "imperial");
      intros Heq; exfalso; revert Heq; apply append_not_dash; auto.
  - intros x -> Hx. unfold formatTemp. now rewrite Hx.
  - intros x -> Hx. unfold formatSpeed. rewrite Hx. split.
    + intros ->. reflexivity.
    + intros Hunit. destruct (primEqStr unit "imperial") eqn:Heq; [|reflexivity].
      exfalso. apply Hunit. destruct unit as [| | | |u]; try discriminate.
      simpl in Heq. apply String.eqb_eq in Heq. now subst u.
  - intros x. destruct x as [s|s| |s m e]; [now left|now left|now left|].
    right. exists s, m, e. split; [reflexivity|]. apply mathRound_nearest.
Qed.

(** ** Background gradient *)

Lemma numCompare_int_finite (k : Z) (s : bool) (m : positive) (e : Z) :
  numCompare (intNum k) (S754_finite s m e)
  = Some (k * 2 ^ (0 - Z.min 0 e)
            ?= (if s then - Z.pos m else Z.pos m) * 2 ^ (e - Z.min 0 e))%Z.
Proof. destruct k; reflexivity. Qed.

Lemma numCompare_finite_int (k : Z) (s : bool) (m : positive) (e : Z) :
  numCompare (S754_finite s m e) (intNum k)
  = Some ((if s then - Z.pos m else Z.pos m) * 2 ^ (e - Z.min 0 e)
            ?= k * 2 ^ (0 - Z.min 0 e))%Z.
Proof. rewrite (Z.min_comm 0 e). destruct k; reflexivity. Qed.

(** Clamping to [-5, 40] does not change on which side of 14 and of 28 a
    number is. *)
Lemma clamp_same_class (t : number) :
  numLt (clamp t (intNum (-5)) (intNum 40)) (intNum 14) = numLt t (intNum 14)
  /\ numLt (intNum 28) (clamp t (intNum (-5)) (intNum 40)) = numLt (intNum 28) t.
Proof.
  destruct t as [s|s| |s m e]; try (destruct s; split; reflexivity);
    [split; reflexivity|].
  assert (HP : (0 < 2 ^ (0 - Z.min 0 e))%Z) by (apply Z.pow_pos_nonneg; lia).
  unfold clamp, mathMin. rewrite (numCompare_int_finite 40).
  unfold numLt at 2 4. rewrite (numCompare_finite_int 14), (numCompare_int_finite 28).
  set (P := (2 ^ (0 - Z.min 0 e))%Z) in *.
  set (W := ((if s then - Z.pos m else Z.pos m) * 2 ^ (e - Z.min 0 e))%Z).
  destruct (Z.compare_spec (40 * P) W) as [H40|H40|H40]; cbn [isZeroWithSign].
  - destruct (Z.compare_spec W (14 * P)), (Z.compare_spec (28 * P) W);
      try lia; split; reflexivity.
  - destruct (Z.compare_spec W (14 * P)), (Z.compare_spec (28 * P) W);
      try lia; split; reflexivity.
  - unfold mathMax. rewrite (numCompare_int_finite (-5)). fold P W.
    destruct (Z.compare_spec (-5 * P) W) as [H5|H5|H5]; cbn [isZeroWithSign].
    + destruct (Z.compare_spec W (14 * P)), (Z.compare_spec (28 * P) W);
        try lia; split; reflexivity.
    + unfold numLt. rewrite (numCompare_finite_int 14), (numCompare_int_finite 28).
      fold P W. split; reflexivity.
    + destruct (Z.compare_spec W (14 * P)), (Z.compare_spec (28 * P) W);
        try lia; split; reflexivity.
Qed.

Lemma never_cool_and_hot (t : number) :
  numLt t (intNum 14) && numLt (intNum 28) t = false.
Proof.
  destruct t as [s|s| |s m e]; try (destruct s; reflexivity); [reflexivity|].
  assert (HP : (0 < 2 ^ (0 - Z.min 0 e))%Z) by (apply Z.pow_pos_nonneg; lia).
  unfold numLt. rewrite (numCompare_finite_int 14), (numCompare_int_finite 28).
  set (P := (2 ^ (0 - Z.min 0 e))%Z) in *.
  set (W := ((if s then - Z.pos m else Z.pos m) * 2 ^ (e - Z.min 0 e))%Z).
  destruct (Z.compare_spec W (14 * P)), (Z.compare_spec (28 * P) W);
    try lia; reflexivity.
Qed.

(** X20: the clamp of [bgGradientFromTemp] has no effect on the gradient:
    for every temperature, NaN and the infinities included, the gradient is
    the one of the unclamped temperature (20 when it is missing), which is
    cool below 14 and hot above 28 and never both; at night the gradient
    does not depend on the temperature. *)
Theorem bgGradientFromTemp_unclamped (tempC : option number) (isDay : bool)
    (theme : prim) :
  let t := default (intNum 20) tempC in
  bgGradientFromTemp tempC isDay theme
    = gradientFor (numLt t (intNum 14)) (numLt (intNum 28) t) isDay theme
  /\ numLt t (intNum 14) && numLt (intNum 28) t = false
  /\ bgGradientFromTemp tempC false theme = bgGradientFromTemp None false theme.
Proof.
  cbv zeta. unfold bgGradientFromTemp. cbv zeta.
  destruct (clamp_same_class (default (intNum 20) tempC)) as [-> ->].
  split; [reflexivity|]. split; [apply never_cool_and_hot|].
  unfold gradientFor. simpl. now destruct (primEqStr theme "dark").
Qed.

Lemma normalizePlace_same_place_witness :
  id saoPaulo <> PUndefined /\ id saoPaulo <> PNull.
Proof.
  exact (proj2 (normalizePlace_same_place (H := exampleHost) (VObj saoPaulo) (VPrim PNull))
           saoPaulo eq_refl).
Defined.

Lemma wx_known_codes_agree_witness :
  wxLabelPT (Some (intNum 4)) = "Condição variável".
Proof.
  apply (proj1 (proj1 (wx_known_codes_agree (intNum 4) true))). reflexivity.
Defined.

Lemma format_dash_witness :
  formatTemp (H := exampleHost) (Some NaN) = "–"
  /\ formatTemp (H := exampleHost) (Some (intNum 21))
     = NumberToString (Host := exampleHost) (mathRound (intNum 21)) ++ "°".
Proof.
  split.
  - apply (proj2 (proj1 (format_dash (H := exampleHost) (Some NaN) None PUndefined))).
    right. reflexivity.
  - apply (proj1 (proj2 (proj2 (format_dash (H := exampleHost)
                                   (Some (intNum 21)) None PUndefined)))).
    + reflexivity.
    + reflexivity.
Defined.
